(** * Record Manager (src/App.tsx and its delete-enabled variant)

    A shallow embedding of the client-side logic of the React component
    [App]: the decoding of Firestore snapshots, the search/status filter,
    the details-modal navigation and the add/edit/delete handlers, followed
    by the properties the specification states about them.

    Conventions of the embedding.
    - A JavaScript string is the list of its UTF-16 code units.
    - A [Date] is its time value (milliseconds since the epoch).
    - React state is a record [AppState]; a handler is a computation in a
      small monad that threads the state together with the effects the
      handlers perform (toasts, console output, backend write calls, clock
      reads) and that can throw, as a rejected [await] does.  A handler
      is run to completion from the state of the render it belongs to:
      what other events do while it awaits the backend is theirs.
    - Host functions that are not code of this repository are parameters:
      [String.prototype.toLowerCase] (the Unicode case mapping), the clock
      behind [new Date()], the backend's verdict on a write and the answer
      to [window.confirm]. *)

From Stdlib Require Import String Ascii.
From Stdlib Require Import List ZArith NArith Bool Lia.
Import ListNotations.

Set Implicit Arguments.

(** ** JavaScript strings *)

Module JS.

Definition code_unit := N.
Definition jsstring := list code_unit.

(** String literals of the source, written as Rocq strings. *)
Definition js (s : string) : jsstring :=
  map N_of_ascii (list_ascii_of_string s).
Arguments js s%_string.

(** [a === b] on strings. *)
Fixpoint streq (a b : jsstring) : bool :=
  match a, b with
  | [], [] => true
  | x :: a', y :: b' => N.eqb x y && streq a' b'
  | _, _ => false
  end.

(** Truthiness of a string: every string but the empty one. *)
Definition truthy (s : jsstring) : bool :=
  match s with [] => false | _ :: _ => true end.

(** ECMAScript WhiteSpace and LineTerminator code points, the ones
    [String.prototype.trim] strips.  All of them are in the BMP, so the
    test is exact on code units. *)
Definition isWhiteSpace (c : code_unit) : bool :=
  ((9 <=? c) && (c <=? 13)         (* TAB LF VT FF CR *)
   || (c =? 32)                    (* SPACE *)
   || (c =? 160)                   (* NO-BREAK SPACE *)
   || (c =? 5760)                  (* U+1680 *)
   || (8192 <=? c) && (c <=? 8202) (* U+2000 .. U+200A *)
   || (c =? 8232) || (c =? 8233)   (* U+2028 U+2029 *)
   || (c =? 8239)                  (* U+202F *)
   || (c =? 8287)                  (* U+205F *)
   || (c =? 12288)                 (* U+3000 *)
   || (c =? 65279))%N.             (* U+FEFF *)

Fixpoint trimStart (s : jsstring) : jsstring :=
  match s with
  | [] => []
  | c :: s' => if isWhiteSpace c then trimStart s' else s
  end.

Definition trimEnd (s : jsstring) : jsstring := rev (trimStart (rev s)).

(** [s.trim()] *)
Definition trim (s : jsstring) : jsstring := trimEnd (trimStart s).

(** [s.startsWith(t)] *)
Fixpoint startsWith (s t : jsstring) : bool :=
  match t, s with
  | [], _ => true
  | _ :: _, [] => false
  | y :: t', x :: s' => N.eqb x y && startsWith s' t'
  end.

(** [s.includes(t)]: [t] occurs in [s] at some position. *)
Fixpoint includes (s t : jsstring) : bool :=
  startsWith s t ||
  match s with
  | [] => false
  | _ :: s' => includes s' t
  end.

(** The case mapping of [toLowerCase] on the Basic Latin and Latin-1
    letters; every other code unit is left as it is.  On strings of
    Basic Latin code units this is what [String.prototype.toLowerCase]
    computes.  It instantiates the parameter [toLowerCase] in the
    examples. *)
Definition lowerUnit (c : code_unit) : code_unit :=
  if ((65 <=? c) && (c <=? 90)
      || (192 <=? c) && (c <=? 222) && negb (c =? 215))%N
  then (c + 32)%N else c.

Definition toLowerCaseLatin (s : jsstring) : jsstring := map lowerUnit s.

End JS.

Import JS.

(** ** The data model *)

(** A [Date], as its time value. *)
Definition Date := Z.

(** [interface Record].  TypeScript's type of [status] is erased at run
    time: the field holds whatever string the document carried. *)
Record AppRecord : Type := mkRecord {
  id : jsstring;
  name : jsstring;
  singular : jsstring;
  plural : jsstring;
  status : jsstring;
  createdAt : Date;
  updatedAt : Date
}.

(** The three values of the status drop-down. *)
Inductive StatusFilter : Type := All | Active | Inactive.

Definition filterValue (s : StatusFilter) : jsstring :=
  match s with
  | All => js "All"
  | Active => js "Active"
  | Inactive => js "Inactive"
  end.

(** ** The filter (App.tsx, [filteredRecords]) *)

Section Filter.

(** [String.prototype.toLowerCase]. *)
Variable toLowerCase : jsstring -> jsstring.

Definition matchesSearch (searchQuery : jsstring) (record : AppRecord) : bool :=
  negb (truthy (trim searchQuery))
  || includes (toLowerCase (name record)) (toLowerCase searchQuery)
  || includes (toLowerCase (singular record)) (toLowerCase searchQuery)
  || includes (toLowerCase (plural record)) (toLowerCase searchQuery).

Definition matchesStatus (statusFilter : StatusFilter) (record : AppRecord) : bool :=
  streq (filterValue statusFilter) (js "All")
  || streq (status record) (filterValue statusFilter).

Definition filteredRecords (records : list AppRecord)
    (searchQuery : jsstring) (statusFilter : StatusFilter) : list AppRecord :=
  filter (fun record =>
            matchesSearch searchQuery record && matchesStatus statusFilter record)
         records.

End Filter.

(** ** Backend documents and write commands *)

(** A Firestore [Timestamp]; the client only ever calls [toDate()] on it,
    so a timestamp is represented by the [Date] that call returns. *)
Record Timestamp : Type := mkTimestamp { toDate : Date }.

(** [doc.data()] for a document of the collection: any field may be
    missing ([undefined], here [None]); a field that is present has the
    type the backend interface declares for it. *)
Record DocumentData : Type := mkData {
  d_name : option jsstring;
  d_singular : option jsstring;
  d_plural : option jsstring;
  d_status : option jsstring;
  d_createdAt : option Timestamp;
  d_updatedAt : option Timestamp
}.

Record QueryDocumentSnapshot : Type := mkDoc {
  doc_id : jsstring;
  data : DocumentData
}.

(** The object handed to [addDoc] and [updateDoc]:
    [{ ...formData, createdAt, updatedAt }]. *)
Record WriteData : Type := mkWrite {
  w_name : jsstring;
  w_singular : jsstring;
  w_plural : jsstring;
  w_status : jsstring;
  w_createdAt : Date;
  w_updatedAt : Date
}.

Inductive WriteCall : Type :=
| AddDoc (collection : string) (fields : WriteData)
| UpdateDoc (collection : string) (docId : jsstring) (fields : WriteData)
| DeleteDoc (collection : string) (docId : jsstring).

(** ** React state *)

Record FormData : Type := mkForm {
  f_name : jsstring;
  f_singular : jsstring;
  f_plural : jsstring;
  f_status : jsstring
}.

Record AppState : Type := mkState {
  records : list AppRecord;
  searchQuery : jsstring;
  statusFilter : StatusFilter;
  showModal : bool;
  editingRecord : option AppRecord;
  selectedRecord : option AppRecord;
  formData : FormData
}.

(** The initial values of the [useState] hooks. *)
Definition emptyForm : FormData :=
  {| f_name := []; f_singular := []; f_plural := [];
     f_status := js "Active" |}.

Definition initialState : AppState :=
  {| records := []; searchQuery := []; statusFilter := All;
     showModal := false; editingRecord := None; selectedRecord := None;
     formData := emptyForm |}.

(** ** Effects *)

Inductive Toast : Type :=
| ToastSuccess (message : string)
| ToastError (message : string).

(** A rejected promise. *)
Inductive Error : Type := FirestoreError.

(** What the handlers act on: the React state and a log of every effect. *)
Record World : Type := mkWorld {
  ui : AppState;
  toasts : list Toast;          (* notifications shown, oldest first *)
  console : list string;        (* console.error lines *)
  writes : list WriteCall;      (* backend write calls issued, oldest first *)
  ticks : nat                   (* clock reads made so far *)
}.

(** What the handlers cannot control. *)
Record Env : Type := mkEnv {
  clock : nat -> Date;                   (* the n-th [new Date()] *)
  accepts : nat -> WriteCall -> bool;    (* does the backend resolve the n-th write? *)
  confirm : string -> bool               (* the answer to [window.confirm] *)
}.

Inductive Outcome (A : Type) : Type :=
| Returned (a : A)
| Thrown (e : Error).
Arguments Thrown {A} e.

Definition M (A : Type) : Type := Env -> World -> Outcome A * World.

Definition ret {A} (a : A) : M A := fun _ w => (Returned a, w).

Definition bind {A B} (c : M A) (k : A -> M B) : M B :=
  fun env w =>
    match c env w with
    | (Returned a, w') => k a env w'
    | (Thrown e, w') => (Thrown e, w')
    end.

Notation "x <- c ;; k" := (bind c (fun x => k))
  (at level 61, c at next level, right associativity).
Notation "c ;; k" := (bind c (fun _ => k))
  (at level 61, right associativity).

(** [try { body } catch (error) { handler }] *)
Definition tryCatch {A} (body : M A) (handler : Error -> M A) : M A :=
  fun env w =>
    match body env w with
    | (Returned a, w') => (Returned a, w')
    | (Thrown e, w') => handler e env w'
    end.

Definition getState : M AppState := fun _ w => (Returned (ui w), w).

Definition setState (f : AppState -> AppState) : M unit :=
  fun _ w =>
    (Returned tt,
     {| ui := f (ui w); toasts := toasts w; console := console w;
        writes := writes w; ticks := ticks w |}).

Definition toast (t : Toast) : M unit :=
  fun _ w =>
    (Returned tt,
     {| ui := ui w; toasts := toasts w ++ [t]; console := console w;
        writes := writes w; ticks := ticks w |}).

Definition toast_error (message : string) : M unit := toast (ToastError message).
Definition toast_success (message : string) : M unit := toast (ToastSuccess message).

Definition console_error (line : string) : M unit :=
  fun _ w =>
    (Returned tt,
     {| ui := ui w; toasts := toasts w; console := console w ++ [line];
        writes := writes w; ticks := ticks w |}).

(** [new Date()] *)
Definition newDate : M Date :=
  fun env w =>
    (Returned (clock env (ticks w)),
     {| ui := ui w; toasts := toasts w; console := console w;
        writes := writes w; ticks := S (ticks w) |}).

(** [await addDoc(..)], [await updateDoc(..)], [await deleteDoc(..)]: the
    call is issued; the [await] resumes when the backend resolves it and
    throws when the backend rejects it. *)
Definition awaitWrite (call : WriteCall) : M unit :=
  fun env w =>
    let w' := {| ui := ui w; toasts := toasts w; console := console w;
                 writes := writes w ++ [call]; ticks := ticks w |} in
    if accepts env (length (writes w)) call
    then (Returned tt, w')
    else (Thrown FirestoreError, w').

Definition windowConfirm (message : string) : M bool :=
  fun env w => (Returned (confirm env message), w).

(** The [useState] setters. *)
Definition setRecords (v : list AppRecord) : M unit :=
  setState (fun s =>
    {| records := v; searchQuery := searchQuery s;
       statusFilter := statusFilter s; showModal := showModal s;
       editingRecord := editingRecord s; selectedRecord := selectedRecord s;
       formData := formData s |}).

Definition setSearchQuery (v : jsstring) : M unit :=
  setState (fun s =>
    {| records := records s; searchQuery := v;
       statusFilter := statusFilter s; showModal := showModal s;
       editingRecord := editingRecord s; selectedRecord := selectedRecord s;
       formData := formData s |}).

Definition setStatusFilter (v : StatusFilter) : M unit :=
  setState (fun s =>
    {| records := records s; searchQuery := searchQuery s;
       statusFilter := v; showModal := showModal s;
       editingRecord := editingRecord s; selectedRecord := selectedRecord s;
       formData := formData s |}).

Definition setShowModal (v : bool) : M unit :=
  setState (fun s =>
    {| records := records s; searchQuery := searchQuery s;
       statusFilter := statusFilter s; showModal := v;
       editingRecord := editingRecord s; selectedRecord := selectedRecord s;
       formData := formData s |}).

Definition setEditingRecord (v : option AppRecord) : M unit :=
  setState (fun s =>
    {| records := records s; searchQuery := searchQuery s;
       statusFilter := statusFilter s; showModal := showModal s;
       editingRecord := v; selectedRecord := selectedRecord s;
       formData := formData s |}).

Definition setSelectedRecord (v : option AppRecord) : M unit :=
  setState (fun s =>
    {| records := records s; searchQuery := searchQuery s;
       statusFilter := statusFilter s; showModal := showModal s;
       editingRecord := editingRecord s; selectedRecord := v;
       formData := formData s |}).

(** [setFormData], in its functional form [setFormData(prev => ..)]. *)
Definition setFormData (f : FormData -> FormData) : M unit :=
  setState (fun s =>
    {| records := records s; searchQuery := searchQuery s;
       statusFilter := statusFilter s; showModal := showModal s;
       editingRecord := editingRecord s; selectedRecord := selectedRecord s;
       formData := f (formData s) |}).

(** Running a handler from a given world. *)
Definition run {A} (c : M A) (env : Env) (w : World) : World := snd (c env w).
Definition result {A} (c : M A) (env : Env) (w : World) : Outcome A := fst (c env w).

(** ** The subscription callback (App.tsx, [onSnapshot]) *)

(** [v || dflt] for a string field that may be missing: the default is
    taken when the field is missing and also when it is the empty string,
    which is falsy. *)
Definition orElse (v : option jsstring) (dflt : jsstring) : jsstring :=
  match v with
  | Some s => if truthy s then s else dflt
  | None => dflt
  end.

(** [t?.toDate() || new Date()]: a [Date] object is always truthy, so the
    clock is read only when the timestamp is missing. *)
Definition dateOrNow (t : option Timestamp) : M Date :=
  match t with
  | Some ts => ret (toDate ts)
  | None => newDate
  end.

(** The object literal pushed for one document. *)
Definition decode (doc : QueryDocumentSnapshot) : M AppRecord :=
  let d := data doc in
  c <- dateOrNow (d_createdAt d) ;;
  u <- dateOrNow (d_updatedAt d) ;;
  ret {| id := doc_id doc;
         name := orElse (d_name d) [];
         singular := orElse (d_singular d) [];
         plural := orElse (d_plural d) [];
         status := orElse (d_status d) (js "Active");
         createdAt := c;
         updatedAt := u |}.

(** [snapshot.forEach(doc => recordsData.push(..))] *)
Fixpoint forEachPush (docs : list QueryDocumentSnapshot)
    (recordsData : list AppRecord) : M (list AppRecord) :=
  match docs with
  | [] => ret recordsData
  | doc :: rest =>
      r <- decode doc ;;
      forEachPush rest (recordsData ++ [r])
  end.

Definition onSnapshotCallback (snapshot : list QueryDocumentSnapshot) : M unit :=
  recordsData <- forEachPush snapshot [] ;;
  setRecords recordsData.

(** ** The form handlers *)

(** The [name] attributes of the form's inputs. *)
Inductive FieldName : Type := Fname | Fsingular | Fplural | Fstatus.

(** [{ ...prev, [name]: name === 'name' ? value.trim() : value }] *)
Definition handleInputChange (field : FieldName) (value : jsstring) : M unit :=
  setFormData (fun prev =>
    match field with
    | Fname =>
        {| f_name := trim value; f_singular := f_singular prev;
           f_plural := f_plural prev; f_status := f_status prev |}
    | Fsingular =>
        {| f_name := f_name prev; f_singular := value;
           f_plural := f_plural prev; f_status := f_status prev |}
    | Fplural =>
        {| f_name := f_name prev; f_singular := f_singular prev;
           f_plural := value; f_status := f_status prev |}
    | Fstatus =>
        {| f_name := f_name prev; f_singular := f_singular prev;
           f_plural := f_plural prev; f_status := value |}
    end).

Definition resetForm : M unit :=
  setFormData (fun _ => emptyForm) ;;
  setEditingRecord None.

(** [validateForm] reads [formData] of the render the handler belongs to. *)
Definition validateForm (form : FormData) : M bool :=
  if negb (truthy (trim (f_name form)))
  then toast_error "Name is required" ;; ret false
  else ret true.

(** [const recordData = { ...formData, createdAt: .., updatedAt: now }] *)
Definition recordData (form : FormData) (editing : option AppRecord)
    (now : Date) : WriteData :=
  {| w_name := f_name form;
     w_singular := f_singular form;
     w_plural := f_plural form;
     w_status := f_status form;
     w_createdAt := match editing with
                    | Some r => createdAt r
                    | None => now
                    end;
     w_updatedAt := now |}.

(** [{ ...recordData, createdAt: now }] *)
Definition withCreatedAt (d : WriteData) (now : Date) : WriteData :=
  {| w_name := w_name d; w_singular := w_singular d; w_plural := w_plural d;
     w_status := w_status d; w_createdAt := now;
     w_updatedAt := w_updatedAt d |}.

(** [handleSubmit].  [formData] and [editingRecord] are the values captured
    by the render whose form was submitted.  [e.preventDefault()] acts on
    the browser's event only and is left out. *)
Definition handleSubmit : M unit :=
  st <- getState ;;
  valid <- validateForm (formData st) ;;
  if negb valid then ret tt
  else
    tryCatch
      (now <- newDate ;;
       let recordData := recordData (formData st) (editingRecord st) now in
       match editingRecord st with
       | Some editing =>
           awaitWrite (UpdateDoc "records" (id editing) recordData) ;;
           toast_success "Record updated successfully"
       | None =>
           awaitWrite (AddDoc "records" (withCreatedAt recordData now)) ;;
           toast_success "Record created successfully"
       end ;;
       setShowModal false ;;
       resetForm)
      (fun error =>
         console_error "Error saving record:" ;;
         toast_error "Error saving record. Please try again.").

Definition handleEdit (record : AppRecord) : M unit :=
  setEditingRecord (Some record) ;;
  setFormData (fun _ =>
    {| f_name := name record; f_singular := singular record;
       f_plural := plural record; f_status := status record |}) ;;
  setShowModal true.

(** [handleDelete], live in the delete-enabled variant of the component
    and commented out in App.tsx. *)
Definition handleDelete (docId : jsstring) : M unit :=
  confirmed <- windowConfirm "Are you sure you want to delete this record?" ;;
  if confirmed then
    tryCatch
      (awaitWrite (DeleteDoc "records" docId) ;;
       toast_success "Record deleted successfully")
      (fun error =>
         console_error "Error deleting record:" ;;
         toast_error "Error deleting record")
  else ret tt.

Definition handleCloseModal : M unit :=
  setShowModal false ;;
  resetForm.

(** ** The details modal (App.tsx, navigation) *)

(** [Array.prototype.findIndex]: the first index whose element passes, or -1. *)
Fixpoint findIndexFrom {A} (p : A -> bool) (l : list A) (i : Z) : Z :=
  match l with
  | [] => (-1)%Z
  | x :: l' => if p x then i else findIndexFrom p l' (i + 1)%Z
  end.

Definition findIndex {A} (p : A -> bool) (l : list A) : Z := findIndexFrom p l 0%Z.

(** [l[i]]: [undefined] (here [None]) outside the array. *)
Definition at_index {A} (l : list A) (i : Z) : option A :=
  if (i <? 0)%Z then None else nth_error l (Z.to_nat i).

Section DetailsModal.

(** The filtered list of the current render and the selected record. *)
Variable filtered : list AppRecord.
Variable selected : AppRecord.

Definition currentIndex : Z :=
  findIndex (fun r => streq (id r) (id selected)) filtered.

Definition hasPrev : bool := (currentIndex >? 0)%Z.

Definition hasNext : bool :=
  (currentIndex <? Z.of_nat (List.length filtered) - 1)%Z
  && (currentIndex >=? 0)%Z.

Definition recordNum : Z :=
  if (currentIndex >=? 0)%Z then (currentIndex + 1)%Z else 0%Z.

Definition totalNum : Z := Z.of_nat (List.length filtered).

(** The [disabled] attributes of the two buttons. *)
Definition previousDisabled : bool := negb hasPrev.
Definition nextDisabled : bool := negb hasNext.

(** [hasPrev && setSelectedRecord(filteredRecords[currentIndex - 1])] *)
Definition onPreviousClick : M unit :=
  if hasPrev then setSelectedRecord (at_index filtered (currentIndex - 1)%Z)
  else ret tt.

(** [hasNext && setSelectedRecord(filteredRecords[currentIndex + 1])] *)
Definition onNextClick : M unit :=
  if hasNext then setSelectedRecord (at_index filtered (currentIndex + 1)%Z)
  else ret tt.

End DetailsModal.

(** ** Vocabulary of the specification *)

(** [t] occurs in [s] as a contiguous run of code units. *)
Definition Substring (t s : jsstring) : Prop :=
  exists before after, s = before ++ t ++ after.

(** Empty, or made of white space only. *)
Definition WhitespaceOnly (s : jsstring) : Prop :=
  Forall (fun c => isWhiteSpace c = true) s.

(** [l1] is [l2] with some elements removed, the others in their order. *)
Inductive Subsequence {A} : list A -> list A -> Prop :=
| sub_nil : Subsequence [] []
| sub_skip x l1 l2 : Subsequence l1 l2 -> Subsequence l1 (x :: l2)
| sub_keep x l1 l2 : Subsequence l1 l2 -> Subsequence (x :: l1) (x :: l2).

Section Predicate.

Variable toLowerCase : jsstring -> jsstring.

(** The search test of the specification: no search text, or a
    case-insensitive substring match against one of the three fields. *)
Definition PassesSearch (q : jsstring) (r : AppRecord) : Prop :=
  WhitespaceOnly q
  \/ Substring (toLowerCase q) (toLowerCase (name r))
  \/ Substring (toLowerCase q) (toLowerCase (singular r))
  \/ Substring (toLowerCase q) (toLowerCase (plural r)).

End Predicate.

Definition PassesStatus (s : StatusFilter) (r : AppRecord) : Prop :=
  s = All \/ filterValue s = status r.

(** The write command a valid submission issues: an update of the record
    being edited, or a create. *)
Definition submitCommand (st : AppState) (now : Date) : WriteCall :=
  match editingRecord st with
  | Some editing =>
      UpdateDoc "records" (id editing)
                (recordData (formData st) (editingRecord st) now)
  | None =>
      AddDoc "records"
             (withCreatedAt (recordData (formData st) (editingRecord st) now) now)
  end.

(** The state a successful submission leaves: the modal closed, the form
    back to its defaults, no editing target. *)
Definition closedForm (st : AppState) : AppState :=
  {| records := records st; searchQuery := searchQuery st;
     statusFilter := statusFilter st; showModal := false;
     editingRecord := None; selectedRecord := selectedRecord st;
     formData := emptyForm |}.

Definition successMessage (st : AppState) : string :=
  match editingRecord st with
  | Some _ => "Record updated successfully"
  | None => "Record created successfully"
  end.

(** The world after a handler has done nothing but show a toast. *)
Definition withToast (w : World) (t : Toast) : World :=
  {| ui := ui w; toasts := toasts w ++ [t]; console := console w;
     writes := writes w; ticks := ticks w |}.

(** The string fields of a decoded record, as the callback derives them
    from the document. *)
Definition DecodedFrom (doc : QueryDocumentSnapshot) (r : AppRecord) : Prop :=
  id r = doc_id doc
  /\ name r = orElse (d_name (data doc)) []
  /\ singular r = orElse (d_singular (data doc)) []
  /\ plural r = orElse (d_plural (data doc)) []
  /\ status r = orElse (d_status (data doc)) (js "Active").

(** ** Sample data *)

Module Sample.

Definition apple : AppRecord :=
  {| id := js "r1"; name := js "Apple"; singular := js "apple";
     plural := js "apples"; status := js "Active";
     createdAt := 1000%Z; updatedAt := 5000%Z |}.

Definition stone : AppRecord :=
  {| id := js "r2"; name := js "Stone"; singular := js "stone";
     plural := js "stones"; status := js "Inactive";
     createdAt := 900%Z; updatedAt := 900%Z |}.

Definition river : AppRecord :=
  {| id := js "r3"; name := js "River"; singular := js "river";
     plural := js "rivers"; status := js "Active";
     createdAt := 800%Z; updatedAt := 800%Z |}.

(** A clock that reads 4000 at every call, a backend that resolves
    every write, a user who confirms. *)
Definition envOk : Env :=
  {| clock := fun _ => 4000%Z; accepts := fun _ _ => true;
     confirm := fun _ => true |}.

(** The same with a backend that rejects every write. *)
Definition envReject : Env :=
  {| clock := fun _ => 4000%Z; accepts := fun _ _ => false;
     confirm := fun _ => true |}.

Definition world (st : AppState) : World :=
  {| ui := st; toasts := []; console := []; writes := []; ticks := 0 |}.

Definition listState : AppState :=
  {| records := [apple; stone; river]; searchQuery := [];
     statusFilter := All; showModal := false; editingRecord := None;
     selectedRecord := None; formData := emptyForm |}.

(** The form open on a new record named "Tree". *)
Definition createState : AppState :=
  {| records := [apple; stone; river]; searchQuery := [];
     statusFilter := All; showModal := true; editingRecord := None;
     selectedRecord := None;
     formData := {| f_name := js "Tree"; f_singular := js "tree";
                    f_plural := js "trees"; f_status := js "Active" |} |}.

(** The form open on [apple], whose [updatedAt] (5000) is ahead of the
    local clock (4000). *)
Definition editState : AppState :=
  {| records := [apple; stone; river]; searchQuery := [];
     statusFilter := All; showModal := true; editingRecord := Some apple;
     selectedRecord := None;
     formData := {| f_name := js "Apple"; f_singular := js "apple";
                    f_plural := js "apples"; f_status := js "Inactive" |} |}.

(** The form open with a name made of two spaces. *)
Definition blankState : AppState :=
  {| records := [apple; stone; river]; searchQuery := [];
     statusFilter := All; showModal := true; editingRecord := None;
     selectedRecord := None;
     formData := {| f_name := js "  "; f_singular := js "tree";
                    f_plural := js "trees"; f_status := js "Active" |} |}.

(** A document whose status is not one of the two recognized values. *)
Definition archivedDoc : QueryDocumentSnapshot :=
  {| doc_id := js "d1";
     data := {| d_name := Some (js "Leaf"); d_singular := None;
                d_plural := None; d_status := Some (js "Archived");
                d_createdAt := Some (mkTimestamp 100%Z);
                d_updatedAt := None |} |}.

(** A document without a name. *)
Definition namelessDoc : QueryDocumentSnapshot :=
  {| doc_id := js "d2";
     data := {| d_name := None; d_singular := Some (js "leaf");
                d_plural := None; d_status := None;
                d_createdAt := None; d_updatedAt := None |} |}.

End Sample.

(** ** The view: what a render shows and the events it offers *)

(** The numbered rows of the table:
    [filteredRecords.map((record, index) => .. {index + 1} ..)]. *)
Fixpoint rowsFrom (index : Z) (l : list AppRecord) : list (Z * AppRecord) :=
  match l with
  | [] => []
  | record :: rest => ((index + 1)%Z, record) :: rowsFrom (index + 1)%Z rest
  end.

Definition tableRows (filtered : list AppRecord) : list (Z * AppRecord) :=
  rowsFrom 0%Z filtered.

(** The two texts of the placeholder row: the one that invites to add a
    first record, and the one that says nothing matches the search or
    filter. *)
Inductive EmptyMessage : Type := NoRecordsFound | NoRecordsMatch.

(** [filteredRecords.length === 0 && (records.length === 0 ? .. : ..)] *)
Definition emptyRow (records filtered : list AppRecord) : option EmptyMessage :=
  if (List.length filtered =? 0)%nat
  then Some (if (List.length records =? 0)%nat
             then NoRecordsFound else NoRecordsMatch)
  else None.

(** The events a user or the backend can raise.  [DeleteClick] exists in
    the delete-enabled variant only; [RowClick] and the four events of the
    details modal exist in App.tsx only. *)
Inductive Event : Type :=
| SnapshotPush (snapshot : list QueryDocumentSnapshot)
| SearchChange (value : jsstring)
| StatusChange (value : StatusFilter)
| AddClick
| RowClick (record : AppRecord)
| EditClick (record : AppRecord)
| DeleteClick (record : AppRecord)
| InputChange (field : FieldName) (value : jsstring)
| Submit
| Cancel
| PreviousClick
| NextClick
| CloseClick
| DetailsEditClick.

Section View.

Variable toLowerCase : jsstring -> jsstring.

(** [filteredRecords] of a render. *)
Definition rendered (st : AppState) : list AppRecord :=
  filteredRecords toLowerCase (records st) (searchQuery st) (statusFilter st).

(** The events a render offers: the rows and their buttons exist for the
    records of the filtered list, the form for [showModal], the details
    modal for a selected record. *)
Definition Offered (st : AppState) (e : Event) : Prop :=
  match e with
  | SnapshotPush _ | SearchChange _ | StatusChange _ | AddClick => True
  | RowClick r | EditClick r | DeleteClick r => In r (rendered st)
  | InputChange _ _ | Submit | Cancel => showModal st = true
  | PreviousClick | NextClick | CloseClick | DetailsEditClick =>
      selectedRecord st <> None
  end.

(** The handler each event is wired to. *)
Definition dispatch (e : Event) : M unit :=
  match e with
  | SnapshotPush snapshot => onSnapshotCallback snapshot
  | SearchChange value => setSearchQuery value
  | StatusChange value => setStatusFilter value
  | AddClick => setShowModal true
  | RowClick record => setSelectedRecord (Some record)
  | EditClick record => handleEdit record
  | DeleteClick record => handleDelete (id record)
  | InputChange field value => handleInputChange field value
  | Submit => handleSubmit
  | Cancel => handleCloseModal
  | PreviousClick =>
      st <- getState ;;
      match selectedRecord st with
      | Some selected => onPreviousClick (rendered st) selected
      | None => ret tt
      end
  | NextClick =>
      st <- getState ;;
      match selectedRecord st with
      | Some selected => onNextClick (rendered st) selected
      | None => ret tt
      end
  | CloseClick => setSelectedRecord None
  | DetailsEditClick =>
      st <- getState ;;
      match selectedRecord st with
      | Some selected => setSelectedRecord None ;; handleEdit selected
      | None => ret tt
      end
  end.

(** The worlds a session can reach, with the events that led there, the
    latest first. *)
Inductive Run (env : Env) : list Event -> World -> Prop :=
| run_start :
    Run env []
        {| ui := initialState; toasts := []; console := []; writes := [];
           ticks := 0 |}
| run_step trace w e :
    Run env trace w -> Offered (ui w) e ->
    Run env (e :: trace) (run (dispatch e) env w).

End View.

(** The document ids the backend has delivered during a session. *)
Fixpoint deliveredIds (trace : list Event) : list jsstring :=
  match trace with
  | [] => []
  | SnapshotPush snapshot :: rest => map doc_id snapshot ++ deliveredIds rest
  | _ :: rest => deliveredIds rest
  end.

(** The document a write command targets, when it targets one. *)
Definition targetId (call : WriteCall) : option jsstring :=
  match call with
  | AddDoc _ _ => None
  | UpdateDoc _ docId _ => Some docId
  | DeleteDoc _ docId => Some docId
  end.

Definition collectionOf (call : WriteCall) : string :=
  match call with
  | AddDoc c _ => c
  | UpdateDoc c _ _ => c
  | DeleteDoc c _ => c
  end.

(** The name a create or update command carries. *)
Definition writtenName (call : WriteCall) : option jsstring :=
  match call with
  | AddDoc _ fields => Some (w_name fields)
  | UpdateDoc _ _ fields => Some (w_name fields)
  | DeleteDoc _ _ => None
  end.

(** The number of timestamps a snapshot lacks. *)
Definition missingTimestamps (doc : QueryDocumentSnapshot) : nat :=
  (match d_createdAt (data doc) with Some _ => 0 | None => 1 end)
  + (match d_updatedAt (data doc) with Some _ => 0 | None => 1 end).

Definition missingInSnapshot (snapshot : list QueryDocumentSnapshot) : nat :=
  list_sum (map missingTimestamps snapshot).

(** No white space at either end. *)
Definition Trimmed (s : jsstring) : Prop :=
  (forall c rest, s = c :: rest -> isWhiteSpace c = false)
  /\ (forall c front, s = front ++ [c] -> isWhiteSpace c = false).

(** ** More sample data *)

Module Tour.

(** The list of [Sample.listState] with the details modal open on the
    second record. *)
Definition stoneSelected : AppState :=
  {| records := [Sample.apple; Sample.stone; Sample.river]; searchQuery := [];
     statusFilter := All; showModal := false; editingRecord := None;
     selectedRecord := Some Sample.stone; formData := emptyForm |}.

(** A document with every field present. *)
Definition fullDoc : QueryDocumentSnapshot :=
  {| doc_id := js "d3";
     data := {| d_name := Some (js "Moss"); d_singular := Some (js "moss");
                d_plural := Some (js "mosses");
                d_status := Some (js "Inactive");
                d_createdAt := Some (mkTimestamp 100%Z);
                d_updatedAt := Some (mkTimestamp 200%Z) |} |}.

(** A backend that rejects the first write and resolves the later ones. *)
Definition envRetry : Env :=
  {| clock := fun n => (4000 + Z.of_nat n)%Z;
     accepts := fun n _ => negb (n =? 0)%nat;
     confirm := fun _ => true |}.

(** A user who declines every confirmation. *)
Definition envDecline : Env :=
  {| clock := fun _ => 4000%Z; accepts := fun _ _ => true;
     confirm := fun _ => false |}.

End Tour.

(** A document that holds the fields of a write: the strings as written,
    the two dates as timestamps. *)
Definition Carries (doc : QueryDocumentSnapshot) (fields : WriteData) : Prop :=
  d_name (data doc) = Some (w_name fields)
  /\ d_singular (data doc) = Some (w_singular fields)
  /\ d_plural (data doc) = Some (w_plural fields)
  /\ d_status (data doc) = Some (w_status fields)
  /\ (exists t, d_createdAt (data doc) = Some t /\ toDate t = w_createdAt fields)
  /\ (exists t, d_updatedAt (data doc) = Some t /\ toDate t = w_updatedAt fields).

(** Typing into the form: a sequence of input changes, the first typed
    first. *)
Fixpoint typeInto (inputs : list (FieldName * jsstring)) : M unit :=
  match inputs with
  | [] => ret tt
  | (field, value) :: rest => handleInputChange field value ;; typeInto rest
  end.

(** The record [Tour.fullDoc] decodes to, and a session in which it is
    pushed, opened for editing and saved. *)
Definition moss : AppRecord :=
  {| id := js "d3"; name := js "Moss"; singular := js "moss";
     plural := js "mosses"; status := js "Inactive";
     createdAt := 100%Z; updatedAt := 200%Z |}.

Definition editSession : list Event :=
  [Submit; EditClick moss; SnapshotPush [Tour.fullDoc]].

Definition afterEditSession : World :=
  run (dispatch toLowerCaseLatin Submit) Sample.envOk
    (run (dispatch toLowerCaseLatin (EditClick moss)) Sample.envOk
       (run (dispatch toLowerCaseLatin (SnapshotPush [Tour.fullDoc]))
            Sample.envOk (Sample.world initialState))).

(** * Properties *)

(** ** Strings *)

Lemma streq_true_iff (a b : jsstring) : streq a b = true <-> a = b.
Proof.
  revert b; induction a as [|x a IH]; intros [|y b]; simpl;
    try (split; [discriminate | congruence]); try tauto.
  rewrite andb_true_iff, N.eqb_eq, IH.
  split; [intros [-> ->]; reflexivity | intros H; injection H; auto].
Qed.

Lemma streq_refl (a : jsstring) : streq a a = true.
Proof. apply streq_true_iff; reflexivity. Qed.

Lemma truthy_false_iff (s : jsstring) : truthy s = false <-> s = [].
Proof. destruct s; simpl; split; congruence. Qed.

Lemma trimStart_nil_iff (s : jsstring) : trimStart s = [] <-> WhitespaceOnly s.
Proof.
  unfold WhitespaceOnly; induction s as [|c s IH]; simpl.
  - split; auto.
  - destruct (isWhiteSpace c) eqn:E.
    + rewrite IH; split; [auto | intros H; inversion H; assumption].
    + split; [discriminate | intros H; inversion H; congruence].
Qed.

(** What [trimStart] leaves is empty or starts with a code unit that is
    not white space. *)
Lemma trimStart_whitespace_nil (s : jsstring) :
  WhitespaceOnly (trimStart s) -> trimStart s = [].
Proof.
  induction s as [|c s IH]; simpl; auto.
  destruct (isWhiteSpace c) eqn:E; auto.
  intros H; inversion H; congruence.
Qed.

Lemma WhitespaceOnly_rev (s : jsstring) : WhitespaceOnly (rev s) <-> WhitespaceOnly s.
Proof.
  unfold WhitespaceOnly; rewrite !Forall_forall.
  split; intros H c Hc; apply H; [apply in_rev in Hc | apply in_rev]; auto.
Qed.

(** [q.trim()] is the empty string exactly when [q] is empty or made of
    white space only. *)
Lemma trim_nil_iff (q : jsstring) : trim q = [] <-> WhitespaceOnly q.
Proof.
  unfold trim, trimEnd.
  rewrite <- (trimStart_nil_iff q).
  split.
  - intros H.
    apply (f_equal (@rev code_unit)) in H; rewrite rev_involutive in H; simpl in H.
    apply trimStart_nil_iff in H.
    apply (proj1 (WhitespaceOnly_rev _)) in H.
    apply trimStart_whitespace_nil; exact H.
  - intros ->; reflexivity.
Qed.

Lemma startsWith_spec (s t : jsstring) :
  startsWith s t = true <-> exists after, s = t ++ after.
Proof.
  revert s; induction t as [|y t IH]; intros s; simpl.
  - destruct s; split; eauto.
  - destruct s as [|x s]; simpl.
    + split; [discriminate | intros [u H]; discriminate].
    + rewrite andb_true_iff, N.eqb_eq, IH; split.
      * intros [-> [u ->]]; eauto.
      * intros [u H]; injection H as -> ->; eauto.
Qed.

(** [s.includes(t)] holds exactly when [t] is a substring of [s]. *)
Lemma includes_spec (s t : jsstring) : includes s t = true <-> Substring t s.
Proof.
  unfold Substring; induction s as [|x s IH]; cbn [includes].
  - rewrite orb_false_r, startsWith_spec; split.
    + intros [u H]; exists [], u; assumption.
    + intros [p [u H]]; destruct p; simpl in H; [eauto | discriminate].
  - rewrite orb_true_iff, startsWith_spec, IH; split.
    + intros [[u H] | [p [u H]]].
      * exists [], u; assumption.
      * exists (x :: p), u; simpl; congruence.
    + intros [[|y p] [u H]]; simpl in H.
      * left; eauto.
      * right; injection H as _ ->; eauto.
Qed.

(** ** The filter *)

Section FilterFacts.

Variable toLowerCase : jsstring -> jsstring.

Lemma matchesSearch_spec (q : jsstring) (r : AppRecord) :
  matchesSearch toLowerCase q r = true <-> PassesSearch toLowerCase q r.
Proof.
  unfold matchesSearch, PassesSearch.
  rewrite !orb_true_iff, negb_true_iff, truthy_false_iff, trim_nil_iff,
    !includes_spec.
  tauto.
Qed.

Lemma matchesStatus_spec (s : StatusFilter) (r : AppRecord) :
  matchesStatus s r = true <-> PassesStatus s r.
Proof.
  unfold matchesStatus, PassesStatus.
  rewrite orb_true_iff, !streq_true_iff.
  split; (intros [H | H]; [left | right; congruence]).
  - destruct s; [reflexivity | discriminate H ..].
  - subst s; reflexivity.
Qed.

Lemma filter_Subsequence {A} (p : A -> bool) (l : list A) :
  Subsequence (filter p l) l.
Proof.
  induction l as [|x l IH]; simpl; [constructor|].
  destruct (p x); constructor; assumption.
Qed.

Lemma filter_idempotent {A} (p : A -> bool) (l : list A) :
  filter p (filter p l) = filter p l.
Proof.
  induction l as [|x l IH]; simpl; [reflexivity|].
  destruct (p x) eqn:E; simpl; [rewrite E, IH|]; auto.
Qed.

End FilterFacts.

Lemma Subsequence_split {A} (l1 l2 : list A) :
  Subsequence l1 l2 ->
  forall x a rest, l1 = x ++ a :: rest ->
  exists x' rest', l2 = x' ++ a :: rest' /\ Subsequence rest rest'.
Proof.
  induction 1 as [|y l1 l2 Hsub IH|y l1 l2 Hsub IH]; intros x a rest E.
  - destruct x; discriminate.
  - destruct (IH _ _ _ E) as [x' [rest' [-> Hr]]].
    exists (y :: x'), rest'; auto.
  - destruct x as [|x0 x]; simpl in E; injection E as -> ->.
    + exists [], l2; auto.
    + destruct (IH _ _ _ eq_refl) as [x' [rest' [-> Hr]]].
      exists (x0 :: x'), rest'; auto.
Qed.

(** Two elements of a subsequence occur in the same order in the list. *)
Lemma Subsequence_order {A} (l1 l2 : list A) (a b : A) (x y z : list A) :
  Subsequence l1 l2 ->
  l1 = x ++ a :: y ++ b :: z ->
  exists x' y' z', l2 = x' ++ a :: y' ++ b :: z'.
Proof.
  intros Hsub E.
  destruct (Subsequence_split Hsub _ _ _ E) as [x' [rest' [-> Hr]]].
  destruct (Subsequence_split Hr _ _ _ eq_refl) as [y' [z' [-> _]]].
  exists x', y', z'; reflexivity.
Qed.

(** Membership in the filtered list, in the vocabulary of the
    specification. *)
Lemma filteredRecords_In (toLowerCase : jsstring -> jsstring)
    (L : list AppRecord) (q : jsstring) (s : StatusFilter) (r : AppRecord) :
  In r (filteredRecords toLowerCase L q s) <->
  In r L /\ PassesSearch toLowerCase q r /\ PassesStatus s r.
Proof.
  unfold filteredRecords.
  rewrite filter_In, andb_true_iff, matchesSearch_spec, matchesStatus_spec.
  reflexivity.
Qed.

(** C1. For every record list L, search query q and status filter s, a
    record is in the filtered list if and only if it is a record of L, it
    passes the search test (q is empty or white space only, or q
    lower-cased is a substring of the lower-cased name, singular or plural)
    and it passes the status test (s is All, or s is the record's status). *)
Theorem C1_filter_membership (toLowerCase : jsstring -> jsstring)
    (L : list AppRecord) (q : jsstring) (s : StatusFilter) (r : AppRecord) :
  In r (filteredRecords toLowerCase L q s) <->
  In r L
  /\ (WhitespaceOnly q
      \/ Substring (toLowerCase q) (toLowerCase (name r))
      \/ Substring (toLowerCase q) (toLowerCase (singular r))
      \/ Substring (toLowerCase q) (toLowerCase (plural r)))
  /\ (s = All \/ filterValue s = status r).
Proof. apply filteredRecords_In. Qed.

(** The two filter scenarios of the specification. *)
Example search_APP_finds_Apple :
  filteredRecords toLowerCaseLatin [Sample.apple] (js "APP") All = [Sample.apple].
Proof. vm_compute. reflexivity. Qed.

Example status_Inactive_keeps_inactive :
  filteredRecords toLowerCaseLatin [Sample.apple; Sample.stone] [] Inactive
  = [Sample.stone].
Proof. vm_compute. reflexivity. Qed.

(** C8. Filtering is idempotent, and the filtered list is L with some
    records removed: the records kept stand in the order they have in L. *)
Theorem C8_filter_idempotent_stable (toLowerCase : jsstring -> jsstring)
    (L : list AppRecord) (q : jsstring) (s : StatusFilter) :
  filteredRecords toLowerCase (filteredRecords toLowerCase L q s) q s
  = filteredRecords toLowerCase L q s
  /\ Subsequence (filteredRecords toLowerCase L q s) L
  /\ (forall a b x y z,
        filteredRecords toLowerCase L q s = x ++ a :: y ++ b :: z ->
        exists x' y' z', L = x' ++ a :: y' ++ b :: z').
Proof.
  unfold filteredRecords; split; [apply filter_idempotent|].
  split; [apply filter_Subsequence|].
  intros a b x y z E.
  exact (Subsequence_order _ _ _ _ _ (filter_Subsequence _ L) E).
Qed.

(** C9, as the specification states it, fails: with the query " app" the
    record Apple is filtered out, although it matches the trimmed query
    "app". *)
Lemma C9_untrimmed_query_counterexample :
  filteredRecords toLowerCaseLatin [Sample.apple] (js " app") All = []
  /\ filteredRecords toLowerCaseLatin [Sample.apple] (trim (js " app")) All
     = [Sample.apple].
Proof. split; vm_compute; reflexivity. Qed.

(** C9, amended. The search text is trimmed only to decide whether a search
    is active.  When the trimmed query is empty the result is that of the
    trimmed (empty) query: the records that pass the status test.  When it
    is not, the query is matched as typed, its leading and trailing white
    space included. *)
Theorem C9_trim_only_gates_the_search (toLowerCase : jsstring -> jsstring)
    (L : list AppRecord) (q : jsstring) (s : StatusFilter) :
  (trim q = [] ->
     filteredRecords toLowerCase L q s = filteredRecords toLowerCase L (trim q) s
     /\ filteredRecords toLowerCase L q s = filter (matchesStatus s) L)
  /\ (trim q <> [] ->
      forall r, In r (filteredRecords toLowerCase L q s) <->
                In r L
                /\ (Substring (toLowerCase q) (toLowerCase (name r))
                    \/ Substring (toLowerCase q) (toLowerCase (singular r))
                    \/ Substring (toLowerCase q) (toLowerCase (plural r)))
                /\ (s = All \/ filterValue s = status r)).
Proof.
  split.
  - intros E.
    assert (H : forall q', trim q' = [] ->
              filteredRecords toLowerCase L q' s = filter (matchesStatus s) L).
    { intros q' E'; unfold filteredRecords; apply filter_ext; intros r.
      unfold matchesSearch; rewrite E'; reflexivity. }
    rewrite (H q E), E; split; [symmetry; apply H|]; reflexivity.
  - intros Hne r.
    rewrite filteredRecords_In.
    unfold PassesSearch, PassesStatus.
    rewrite <- trim_nil_iff; tauto.
Qed.

Lemma C9_trim_only_gates_the_search_witness :
  filteredRecords toLowerCaseLatin [Sample.apple; Sample.stone] (js "  ") Inactive
  = filteredRecords toLowerCaseLatin [Sample.apple; Sample.stone]
      (trim (js "  ")) Inactive
  /\ ~ In Sample.apple
        (filteredRecords toLowerCaseLatin [Sample.apple] (js " app") All).
Proof.
  split.
  - apply (proj1 (C9_trim_only_gates_the_search toLowerCaseLatin
                    [Sample.apple; Sample.stone] (js "  ") Inactive)).
    vm_compute; reflexivity.
  - intros H.
    apply (proj2 (C9_trim_only_gates_the_search toLowerCaseLatin
                    [Sample.apple] (js " app") All)) in H.
    + destruct H as [_ [H _]].
      rewrite <- !includes_spec in H.
      vm_compute in H. intuition discriminate.
    + vm_compute; discriminate.
Defined.

(** ** The form handlers *)

(** A submission whose name is blank: one toast, nothing else. *)
Lemma handleSubmit_blank (env : Env) (w : World) :
  trim (f_name (formData (ui w))) = [] ->
  handleSubmit env w = (Returned tt, withToast w (ToastError "Name is required")).
Proof.
  intros E; unfold handleSubmit, bind, getState, validateForm; simpl.
  rewrite E; reflexivity.
Qed.

(** A submission whose name is not blank: the clock is read once, one
    write is issued, and the backend's verdict decides the rest. *)
Lemma handleSubmit_valid (env : Env) (w : World) :
  trim (f_name (formData (ui w))) <> [] ->
  let now := clock env (ticks w) in
  let call := submitCommand (ui w) now in
  handleSubmit env w =
  (Returned tt,
   if accepts env (List.length (writes w)) call
   then {| ui := closedForm (ui w);
           toasts := toasts w ++ [ToastSuccess (successMessage (ui w))];
           console := console w;
           writes := writes w ++ [call];
           ticks := S (ticks w) |}
   else {| ui := ui w;
           toasts := toasts w ++ [ToastError "Error saving record. Please try again."];
           console := console w ++ ["Error saving record:"%string];
           writes := writes w ++ [call];
           ticks := S (ticks w) |}).
Proof.
  intros Hne now call; subst now call.
  unfold handleSubmit, bind, getState, validateForm, submitCommand, successMessage.
  destruct (trim (f_name (formData (ui w)))) as [|c t] eqn:E; [congruence|].
  simpl.
  unfold tryCatch, bind, newDate, awaitWrite; simpl.
  destruct (editingRecord (ui w)) as [editing|]; simpl;
    match goal with
    | |- context [accepts env ?n ?c] => destruct (accepts env n c)
    end; reflexivity.
Qed.

Lemma handleDelete_confirmed (env : Env) (w : World) (docId : jsstring) :
  confirm env "Are you sure you want to delete this record?" = true ->
  let call := DeleteDoc "records" docId in
  handleDelete docId env w =
  (Returned tt,
   if accepts env (List.length (writes w)) call
   then {| ui := ui w;
           toasts := toasts w ++ [ToastSuccess "Record deleted successfully"];
           console := console w;
           writes := writes w ++ [call];
           ticks := ticks w |}
   else {| ui := ui w;
           toasts := toasts w ++ [ToastError "Error deleting record"];
           console := console w ++ ["Error deleting record:"%string];
           writes := writes w ++ [call];
           ticks := ticks w |}).
Proof.
  intros Hc call; subst call.
  unfold handleDelete, bind, windowConfirm; rewrite Hc.
  unfold tryCatch, bind, awaitWrite; simpl.
  destruct (accepts env _ _); reflexivity.
Qed.

(** The write side of the name invariant: every write a submission adds
    to the log carries a name that is not blank. *)
Lemma handleSubmit_writes_named (env : Env) (w : World) (call : WriteCall) :
  In call (writes (run handleSubmit env w)) ->
  In call (writes w)
  \/ exists fields,
       (call = AddDoc "records" fields
        \/ exists docId, call = UpdateDoc "records" docId fields)
       /\ trim (w_name fields) <> [].
Proof.
  destruct (trim (f_name (formData (ui w)))) as [|c t] eqn:E.
  - unfold run; rewrite (handleSubmit_blank env w E); simpl; auto.
  - assert (Hne : trim (f_name (formData (ui w))) <> []) by (rewrite E; discriminate).
    unfold run; rewrite (handleSubmit_valid env w Hne); simpl.
    intros H.
    assert (H' : In call (writes w ++ [submitCommand (ui w) (clock env (ticks w))])).
    { destruct (accepts env _ _); exact H. }
    apply in_app_or in H'; destruct H' as [H' | [H' | []]]; [left; assumption|].
    right; subst call; unfold submitCommand.
    destruct (editingRecord (ui w)) as [editing|]; eexists; split; eauto.
Qed.

(** C2. When the name field of the form is empty or white space only,
    submitting issues no backend write (neither create nor update), shows
    the error toast, and changes nothing else: the React state, the console
    and the clock are as they were. *)
Theorem C2_blank_name_aborts_submission (env : Env) (w : World) :
  WhitespaceOnly (f_name (formData (ui w))) ->
  writes (run handleSubmit env w) = writes w
  /\ toasts (run handleSubmit env w) = toasts w ++ [ToastError "Name is required"]
  /\ ui (run handleSubmit env w) = ui w
  /\ console (run handleSubmit env w) = console w
  /\ ticks (run handleSubmit env w) = ticks w
  /\ result handleSubmit env w = Returned tt.
Proof.
  intros H; apply trim_nil_iff in H.
  unfold run, result; rewrite (handleSubmit_blank env w H); simpl.
  repeat split; reflexivity.
Qed.

Lemma C2_blank_name_aborts_submission_witness :
  writes (run handleSubmit Sample.envOk (Sample.world Sample.blankState)) = []
  /\ toasts (run handleSubmit Sample.envOk (Sample.world Sample.blankState))
     = [ToastError "Name is required"]
  /\ ui (run handleSubmit Sample.envOk (Sample.world Sample.blankState))
     = Sample.blankState.
Proof.
  destruct (C2_blank_name_aborts_submission Sample.envOk
              (Sample.world Sample.blankState)) as [Hw [Ht [Hu _]]].
  - repeat constructor.
  - repeat split; assumption.
Defined.

(** C3, as the specification states it, fails: the record being edited was
    last updated at 5000 and the local clock reads 4000; the update that is
    written, and accepted, carries updatedAt 4000, which is not greater. *)
Lemma C3_updatedAt_counterexample :
  editingRecord Sample.editState = Some Sample.apple
  /\ trim (f_name (formData Sample.editState)) <> []
  /\ exists fields,
       writes (run handleSubmit Sample.envOk (Sample.world Sample.editState))
       = [UpdateDoc "records" (id Sample.apple) fields]
       /\ toasts (run handleSubmit Sample.envOk (Sample.world Sample.editState))
          = [ToastSuccess "Record updated successfully"]
       /\ ~ (updatedAt Sample.apple < w_updatedAt fields)%Z.
Proof.
  split; [reflexivity|].
  split; [vm_compute; discriminate|].
  eexists; split; [vm_compute; reflexivity|].
  split; [vm_compute; reflexivity|].
  vm_compute; discriminate.
Qed.

(** C3, amended. For every Edit-mode submission that passes validation and
    whose backend update succeeds, the written record's createdAt is the
    pre-edit createdAt, and the written updatedAt is the reading of the
    client's clock taken at submission; it is greater than the pre-edit
    updatedAt exactly when that reading is. *)
Theorem C3_edit_preserves_createdAt (env : Env) (w : World) (editing : AppRecord) :
  editingRecord (ui w) = Some editing ->
  trim (f_name (formData (ui w))) <> [] ->
  accepts env (List.length (writes w))
          (submitCommand (ui w) (clock env (ticks w))) = true ->
  exists fields,
    writes (run handleSubmit env w)
    = writes w ++ [UpdateDoc "records" (id editing) fields]
    /\ toasts (run handleSubmit env w)
       = toasts w ++ [ToastSuccess "Record updated successfully"]
    /\ w_createdAt fields = createdAt editing
    /\ w_updatedAt fields = clock env (ticks w)
    /\ ((updatedAt editing < w_updatedAt fields)%Z
        <-> (updatedAt editing < clock env (ticks w))%Z).
Proof.
  intros He Hne Hok.
  unfold run; rewrite (handleSubmit_valid env w Hne); simpl.
  rewrite Hok; simpl.
  unfold submitCommand, successMessage; rewrite He.
  eexists; repeat split; simpl; auto.
Qed.

Lemma C3_edit_preserves_createdAt_witness :
  exists fields,
    writes (run handleSubmit Sample.envOk (Sample.world Sample.editState))
    = [UpdateDoc "records" (js "r1") fields]
    /\ w_createdAt fields = 1000%Z
    /\ w_updatedAt fields = 4000%Z.
Proof.
  destruct (C3_edit_preserves_createdAt Sample.envOk
              (Sample.world Sample.editState) (editing := Sample.apple))
    as [fields [Hw [_ [Hc [Hu _]]]]].
  - reflexivity.
  - vm_compute; discriminate.
  - reflexivity.
  - exists fields; repeat split; assumption.
Defined.

(** C5. For every Create-mode submission whose trimmed name is not empty
    and whose backend create succeeds, the created record's createdAt
    equals its updatedAt: both are the one clock reading taken at
    submission. *)
Theorem C5_create_sets_equal_timestamps (env : Env) (w : World) :
  editingRecord (ui w) = None ->
  trim (f_name (formData (ui w))) <> [] ->
  accepts env (List.length (writes w))
          (submitCommand (ui w) (clock env (ticks w))) = true ->
  exists fields,
    writes (run handleSubmit env w) = writes w ++ [AddDoc "records" fields]
    /\ toasts (run handleSubmit env w)
       = toasts w ++ [ToastSuccess "Record created successfully"]
    /\ w_createdAt fields = w_updatedAt fields
    /\ w_updatedAt fields = clock env (ticks w).
Proof.
  intros He Hne Hok.
  unfold run; rewrite (handleSubmit_valid env w Hne); simpl.
  rewrite Hok; simpl.
  unfold submitCommand, successMessage; rewrite He.
  eexists; repeat split; simpl; auto.
Qed.

Lemma C5_create_sets_equal_timestamps_witness :
  exists fields,
    writes (run handleSubmit Sample.envOk (Sample.world Sample.createState))
    = [AddDoc "records" fields]
    /\ w_createdAt fields = w_updatedAt fields
    /\ w_updatedAt fields = 4000%Z.
Proof.
  destruct (C5_create_sets_equal_timestamps Sample.envOk
              (Sample.world Sample.createState))
    as [fields [Hw [_ [Hc Hu]]]].
  - reflexivity.
  - vm_compute; discriminate.
  - reflexivity.
  - exists fields; repeat split; assumption.
Defined.

(** C4. When the backend rejects the create or update a valid submission
    issues, or the delete a confirmed deletion issues, the React state is
    left as it was (the record list, the modal's visibility, the form's
    field values and the editing target included) and an error toast is
    shown. *)
Theorem C4_rejected_write_keeps_state (env : Env) (w : World) :
  (trim (f_name (formData (ui w))) <> [] ->
   accepts env (List.length (writes w))
           (submitCommand (ui w) (clock env (ticks w))) = false ->
   writes (run handleSubmit env w)
   = writes w ++ [submitCommand (ui w) (clock env (ticks w))]
   /\ ui (run handleSubmit env w) = ui w
   /\ toasts (run handleSubmit env w)
      = toasts w ++ [ToastError "Error saving record. Please try again."])
  /\ (forall docId,
        confirm env "Are you sure you want to delete this record?" = true ->
        accepts env (List.length (writes w)) (DeleteDoc "records" docId) = false ->
        writes (run (handleDelete docId) env w)
        = writes w ++ [DeleteDoc "records" docId]
        /\ ui (run (handleDelete docId) env w) = ui w
        /\ toasts (run (handleDelete docId) env w)
           = toasts w ++ [ToastError "Error deleting record"]).
Proof.
  split.
  - intros Hne Hrej.
    unfold run; rewrite (handleSubmit_valid env w Hne); simpl.
    rewrite Hrej; simpl; auto.
  - intros docId Hc Hrej.
    unfold run; rewrite (handleDelete_confirmed env w docId Hc); simpl.
    rewrite Hrej; simpl; auto.
Qed.

Lemma C4_rejected_write_keeps_state_witness :
  (ui (run handleSubmit Sample.envReject (Sample.world Sample.editState))
   = Sample.editState
   /\ ui (run handleSubmit Sample.envReject (Sample.world Sample.createState))
      = Sample.createState)
  /\ ui (run (handleDelete (js "r1")) Sample.envReject
             (Sample.world Sample.listState))
     = Sample.listState.
Proof.
  split; [split|].
  - apply (proj1 (C4_rejected_write_keeps_state Sample.envReject
                    (Sample.world Sample.editState)));
      [vm_compute; discriminate | reflexivity].
  - apply (proj1 (C4_rejected_write_keeps_state Sample.envReject
                    (Sample.world Sample.createState)));
      [vm_compute; discriminate | reflexivity].
  - apply (proj2 (C4_rejected_write_keeps_state Sample.envReject
                    (Sample.world Sample.listState)) (js "r1"));
      reflexivity.
Defined.

(** ** The subscription callback *)

(** Decoding a document always returns a record, touches nothing but the
    clock, and reads the clock once per missing timestamp. *)
Lemma decode_returns (doc : QueryDocumentSnapshot) (env : Env) (w : World) :
  exists r w',
    decode doc env w = (Returned r, w')
    /\ DecodedFrom doc r
    /\ createdAt r = match d_createdAt (data doc) with
                     | Some t => toDate t
                     | None => clock env (ticks w)
                     end
    /\ updatedAt r = match d_updatedAt (data doc) with
                     | Some t => toDate t
                     | None => clock env (match d_createdAt (data doc) with
                                          | Some _ => ticks w
                                          | None => S (ticks w)
                                          end)
                     end
    /\ ui w' = ui w /\ toasts w' = toasts w /\ console w' = console w
    /\ writes w' = writes w.
Proof.
  unfold decode, bind, dateOrNow, ret, newDate, DecodedFrom.
  destruct (d_createdAt (data doc)), (d_updatedAt (data doc)); simpl;
    eexists; eexists; (split; [reflexivity|]); simpl; repeat split; reflexivity.
Qed.

Lemma forEachPush_returns (docs : list QueryDocumentSnapshot) :
  forall (acc : list AppRecord) (env : Env) (w : World),
  exists rs w',
    forEachPush docs acc env w = (Returned (acc ++ rs), w')
    /\ Forall2 DecodedFrom docs rs
    /\ ui w' = ui w /\ toasts w' = toasts w /\ console w' = console w
    /\ writes w' = writes w.
Proof.
  induction docs as [|doc docs IH]; intros acc env w; simpl.
  - exists [], w; rewrite app_nil_r; unfold ret; repeat split; constructor.
  - destruct (decode_returns doc env w)
      as [r [w1 [E [Hd [_ [_ [Hu [Ht [Hc Hw]]]]]]]]].
    destruct (IH (acc ++ [r]) env w1) as [rs [w2 [E2 [HF [Hu2 [Ht2 [Hc2 Hw2]]]]]]].
    exists (r :: rs), w2.
    unfold bind; rewrite E, E2, <- app_assoc; simpl.
    repeat split; try congruence.
    constructor; assumption.
Qed.

(** A push replaces the record list by the decoded documents, in the
    snapshot's order, and changes nothing else of the React state. *)
Lemma onSnapshotCallback_records (snapshot : list QueryDocumentSnapshot)
    (env : Env) (w : World) :
  Forall2 DecodedFrom snapshot
          (records (ui (run (onSnapshotCallback snapshot) env w)))
  /\ result (onSnapshotCallback snapshot) env w = Returned tt
  /\ toasts (run (onSnapshotCallback snapshot) env w) = toasts w
  /\ writes (run (onSnapshotCallback snapshot) env w) = writes w.
Proof.
  unfold run, result, onSnapshotCallback, bind.
  destruct (forEachPush_returns snapshot [] env w)
    as [rs [w' [E [HF [Hu [Ht [Hc Hw]]]]]]].
  rewrite E; simpl; auto.
Qed.

(** C7, as the specification states it, fails: a document whose status is
    the unrecognized value "Archived" decodes to a record whose status is
    "Archived", not Active. *)
Lemma C7_unrecognized_status_counterexample :
  exists r,
    result (decode Sample.archivedDoc) Sample.envOk (Sample.world Sample.listState)
    = Returned r
    /\ status r = js "Archived"
    /\ status r <> js "Active".
Proof.
  eexists; split; [vm_compute; reflexivity|].
  split; [reflexivity | vm_compute; discriminate].
Qed.

(** C7, amended. Decoding a document always yields a record: a missing
    name, singular or plural decodes to the empty string; a missing or
    empty status decodes to Active, and any other stored status, recognized
    or not, is kept as it is; a missing createdAt or updatedAt decodes to
    the clock reading taken at that point of the decoding, and a stored
    timestamp to its date. *)
Theorem C7_decode_defaults (doc : QueryDocumentSnapshot) (env : Env) (w : World) :
  exists r,
    result (decode doc) env w = Returned r
    /\ id r = doc_id doc
    /\ (d_name (data doc) = None -> name r = [])
    /\ (d_singular (data doc) = None -> singular r = [])
    /\ (d_plural (data doc) = None -> plural r = [])
    /\ (d_status (data doc) = None \/ d_status (data doc) = Some [] ->
        status r = js "Active")
    /\ (forall s, d_status (data doc) = Some s -> s <> [] -> status r = s)
    /\ (d_createdAt (data doc) = None -> createdAt r = clock env (ticks w))
    /\ (forall t, d_createdAt (data doc) = Some t -> createdAt r = toDate t)
    /\ (d_updatedAt (data doc) = None ->
        updatedAt r = clock env (match d_createdAt (data doc) with
                                 | Some _ => ticks w
                                 | None => S (ticks w)
                                 end))
    /\ (forall t, d_updatedAt (data doc) = Some t -> updatedAt r = toDate t).
Proof.
  destruct (decode_returns doc env w)
    as [r [w' [E [[Hi [Hn [Hs [Hp Hst]]]] [Hc [Hu _]]]]]].
  exists r; unfold result; rewrite E; simpl.
  split; [reflexivity|]. split; [assumption|].
  split; [intros H; rewrite Hn, H; reflexivity|].
  split; [intros H; rewrite Hs, H; reflexivity|].
  split; [intros H; rewrite Hp, H; reflexivity|].
  split; [intros [H | H]; rewrite Hst, H; reflexivity|].
  split; [intros [|c s] H Hne; [congruence | rewrite Hst, H; reflexivity]|].
  split; [intros H; rewrite Hc, H; reflexivity|].
  split; [intros t H; rewrite Hc, H; reflexivity|].
  split; [|intros t H; rewrite Hu, H; reflexivity].
  intros H; rewrite Hu, H; reflexivity.
Qed.

Lemma C7_decode_defaults_witness :
  exists r,
    result (decode Sample.namelessDoc) Sample.envOk (Sample.world Sample.listState)
    = Returned r
    /\ name r = [] /\ plural r = [] /\ status r = js "Active"
    /\ createdAt r = 4000%Z.
Proof.
  destruct (C7_decode_defaults Sample.namelessDoc Sample.envOk
              (Sample.world Sample.listState))
    as [r [E [_ [Hn [_ [Hp [Hs [_ [Hc _]]]]]]]]].
  exists r; split; [exact E|].
  split; [apply Hn; reflexivity|].
  split; [apply Hp; reflexivity|].
  split; [apply Hs; left; reflexivity|].
  apply Hc; reflexivity.
Defined.

(** C10, as the specification states it, fails: a snapshot holding a
    document without a name yields a local list whose record has the empty
    name. *)
Lemma C10_empty_name_counterexample :
  exists r,
    records (ui (run (onSnapshotCallback [Sample.namelessDoc]) Sample.envOk
                     (Sample.world Sample.listState))) = [r]
    /\ name r = [].
Proof. eexists; split; vm_compute; reflexivity. Qed.

Lemma Forall2_names (docs : list QueryDocumentSnapshot) (rs : list AppRecord) :
  Forall2 DecodedFrom docs rs ->
  (Forall (fun r => name r <> []) rs
   <-> Forall (fun doc => exists s, d_name (data doc) = Some s /\ s <> []) docs).
Proof.
  induction 1 as [|doc r docs rs Hd HF IH].
  - split; constructor.
  - destruct Hd as [_ [Hn _]].
    split; intros H; inversion H as [|? ? Hh Ht]; subst; constructor;
      try (apply IH; assumption).
    + rewrite Hn in Hh; unfold orElse in Hh.
      destruct (d_name (data doc)) as [[|c s]|]; simpl in Hh; try congruence.
      exists (c :: s); split; [reflexivity | discriminate].
    + destruct Hh as [s [E Hne]]; rewrite Hn, E; unfold orElse.
      destruct s; simpl; congruence.
Qed.

(** C10, amended. For every snapshot, every decoded record of the resulting
    local list has a non-empty name exactly when every document of the
    snapshot carries a non-empty name; a document whose name is missing or
    empty is presented with the empty name. *)
Theorem C10_names_as_stored (snapshot : list QueryDocumentSnapshot)
    (env : Env) (w : World) :
  (Forall (fun r => name r <> [])
          (records (ui (run (onSnapshotCallback snapshot) env w)))
   <-> Forall (fun doc => exists s, d_name (data doc) = Some s /\ s <> [])
              snapshot)
  /\ Forall2 (fun doc r => name r = orElse (d_name (data doc)) [])
             snapshot
             (records (ui (run (onSnapshotCallback snapshot) env w))).
Proof.
  destruct (onSnapshotCallback_records snapshot env w) as [HF _].
  split; [apply Forall2_names; assumption|].
  revert HF; generalize (records (ui (run (onSnapshotCallback snapshot) env w))).
  induction 1 as [|doc r docs rs Hd HF IH]; constructor; auto.
  destruct Hd as [_ [Hn _]]; exact Hn.
Qed.

(** ** The details modal *)

Lemma findIndexFrom_range {A} (p : A -> bool) (l : list A) :
  forall i : Z,
    findIndexFrom p l i = (-1)%Z
    \/ (i <= findIndexFrom p l i < i + Z.of_nat (List.length l))%Z.
Proof.
  induction l as [|x l IH]; intros i; simpl; [left; reflexivity|].
  destruct (p x); [right; lia|].
  destruct (IH (i + 1)%Z) as [E | H]; [left; assumption | right; lia].
Qed.

Lemma findIndex_range {A} (p : A -> bool) (l : list A) :
  findIndex p l = (-1)%Z
  \/ (0 <= findIndex p l < Z.of_nat (List.length l))%Z.
Proof.
  unfold findIndex.
  destruct (findIndexFrom_range p l 0) as [E | H]; [left; assumption | right; lia].
Qed.

(** Inside the array, indexing returns one of its elements. *)
Lemma at_index_in_bounds {A} (l : list A) (i : Z) :
  (0 <= i < Z.of_nat (List.length l))%Z ->
  exists x, at_index l i = Some x /\ In x l.
Proof.
  intros H; unfold at_index.
  destruct (i <? 0)%Z eqn:E; [apply Z.ltb_lt in E; lia|].
  destruct (nth_error l (Z.to_nat i)) as [x|] eqn:En.
  - exists x; split; [reflexivity | eapply nth_error_In; eassumption].
  - apply nth_error_None in En; lia.
Qed.

Section DetailsModalFacts.

Variable filtered : list AppRecord.
Variable selected : AppRecord.

Lemma currentIndex_range :
  currentIndex filtered selected = (-1)%Z
  \/ (0 <= currentIndex filtered selected < Z.of_nat (List.length filtered))%Z.
Proof. apply findIndex_range. Qed.

Lemma hasPrev_iff :
  hasPrev filtered selected = true <-> (0 < currentIndex filtered selected)%Z.
Proof. unfold hasPrev; rewrite Z.gtb_ltb, Z.ltb_lt; reflexivity. Qed.

Lemma hasNext_iff :
  hasNext filtered selected = true
  <-> (0 <= currentIndex filtered selected
          < Z.of_nat (List.length filtered) - 1)%Z.
Proof.
  unfold hasNext.
  rewrite andb_true_iff, Z.ltb_lt, Z.geb_le; lia.
Qed.

Lemma onPreviousClick_disabled (env : Env) (w : World) :
  hasPrev filtered selected = false ->
  onPreviousClick filtered selected env w = (Returned tt, w).
Proof. unfold onPreviousClick; intros ->; reflexivity. Qed.

Lemma onNextClick_disabled (env : Env) (w : World) :
  hasNext filtered selected = false ->
  onNextClick filtered selected env w = (Returned tt, w).
Proof. unfold onNextClick; intros ->; reflexivity. Qed.

Lemma onPreviousClick_enabled (env : Env) (w : World) :
  hasPrev filtered selected = true ->
  exists r,
    at_index filtered (currentIndex filtered selected - 1)%Z = Some r
    /\ In r filtered
    /\ selectedRecord (ui (run (onPreviousClick filtered selected) env w))
       = Some r.
Proof.
  intros H; pose proof (proj1 hasPrev_iff H) as Hi.
  destruct currentIndex_range as [E | Hr]; [lia|].
  destruct (@at_index_in_bounds _ filtered (currentIndex filtered selected - 1)%Z)
    as [r [Hr1 Hr2]]; [lia|].
  exists r; repeat split; try assumption.
  unfold run, onPreviousClick; rewrite H; simpl; exact Hr1.
Qed.

Lemma onNextClick_enabled (env : Env) (w : World) :
  hasNext filtered selected = true ->
  exists r,
    at_index filtered (currentIndex filtered selected + 1)%Z = Some r
    /\ In r filtered
    /\ selectedRecord (ui (run (onNextClick filtered selected) env w))
       = Some r.
Proof.
  intros H; pose proof (proj1 hasNext_iff H) as Hi.
  destruct (@at_index_in_bounds _ filtered (currentIndex filtered selected + 1)%Z)
    as [r [Hr1 Hr2]]; [lia|].
  exists r; repeat split; try assumption.
  unfold run, onNextClick; rewrite H; simpl; exact Hr1.
Qed.

End DetailsModalFacts.

(** C6. Navigation never leaves the filtered list.  The selected record's
    index is -1 or a valid index.  At index 0 Previous is disabled and its
    click changes nothing; at the last index Next is disabled and its click
    changes nothing; at index -1 (the selected id is not in the filtered
    list) both are disabled, both clicks change nothing, and the position
    shown is 0 of N.  A button that is enabled selects the record at the
    neighbouring index, which is a record of the filtered list. *)
Theorem C6_navigation_stays_in_bounds (filtered : list AppRecord)
    (selected : AppRecord) (env : Env) (w : World) :
  let i := currentIndex filtered selected in
  let n := Z.of_nat (List.length filtered) in
  (i = -1 \/ 0 <= i < n)%Z
  /\ (i = 0%Z ->
      previousDisabled filtered selected = true
      /\ onPreviousClick filtered selected env w = (Returned tt, w))
  /\ (i = (n - 1)%Z ->
      nextDisabled filtered selected = true
      /\ onNextClick filtered selected env w = (Returned tt, w))
  /\ (i = (-1)%Z ->
      previousDisabled filtered selected = true
      /\ nextDisabled filtered selected = true
      /\ onPreviousClick filtered selected env w = (Returned tt, w)
      /\ onNextClick filtered selected env w = (Returned tt, w)
      /\ recordNum filtered selected = 0%Z
      /\ totalNum filtered = n)
  /\ (previousDisabled filtered selected = false ->
      exists r, at_index filtered (i - 1)%Z = Some r /\ In r filtered
                /\ selectedRecord (ui (run (onPreviousClick filtered selected) env w))
                   = Some r)
  /\ (nextDisabled filtered selected = false ->
      exists r, at_index filtered (i + 1)%Z = Some r /\ In r filtered
                /\ selectedRecord (ui (run (onNextClick filtered selected) env w))
                   = Some r).
Proof.
  intros i n.
  assert (Hp : forall b, (i <= 0)%Z -> hasPrev filtered selected = b -> b = false).
  { intros [|] Hi H; [apply hasPrev_iff in H; fold i in H; lia | reflexivity]. }
  assert (Hn : forall b, (i = -1 \/ n - 1 <= i)%Z ->
                         hasNext filtered selected = b -> b = false).
  { intros [|] Hi H; [apply hasNext_iff in H; fold i n in H; lia | reflexivity]. }
  split; [apply currentIndex_range|].
  split; [intros E|split; [intros E|split; [intros E|split; intros E]]].
  - assert (H := Hp _ ltac:(lia) eq_refl).
    split; [unfold previousDisabled; rewrite H; reflexivity|].
    apply onPreviousClick_disabled; assumption.
  - assert (H := Hn _ ltac:(lia) eq_refl).
    split; [unfold nextDisabled; rewrite H; reflexivity|].
    apply onNextClick_disabled; assumption.
  - assert (H1 := Hp _ ltac:(lia) eq_refl).
    assert (H2 := Hn _ ltac:(lia) eq_refl).
    unfold previousDisabled, nextDisabled; rewrite H1, H2.
    repeat split; try reflexivity.
    + apply onPreviousClick_disabled; assumption.
    + apply onNextClick_disabled; assumption.
    + unfold recordNum; fold i; rewrite E; reflexivity.
  - apply onPreviousClick_enabled.
    unfold previousDisabled in E; apply negb_false_iff in E; assumption.
  - apply onNextClick_enabled.
    unfold nextDisabled in E; apply negb_false_iff in E; assumption.
Qed.

Lemma C6_navigation_stays_in_bounds_witness :
  (previousDisabled [Sample.apple; Sample.stone; Sample.river] Sample.apple = true
   /\ onPreviousClick [Sample.apple; Sample.stone; Sample.river] Sample.apple
        Sample.envOk (Sample.world Sample.listState)
      = (Returned tt, Sample.world Sample.listState))
  /\ recordNum [Sample.stone] Sample.apple = 0%Z.
Proof.
  split.
  - apply (C6_navigation_stays_in_bounds
             [Sample.apple; Sample.stone; Sample.river] Sample.apple
             Sample.envOk (Sample.world Sample.listState)).
    reflexivity.
  - apply (C6_navigation_stays_in_bounds [Sample.stone] Sample.apple
             Sample.envOk (Sample.world Sample.listState)).
    reflexivity.
Defined.

(** Stepping through the sample list: Next from the first record selects
    the second, and Next from the last record changes nothing. *)
Example next_from_first_selects_second :
  selectedRecord
    (ui (run (onNextClick [Sample.apple; Sample.stone; Sample.river] Sample.apple)
             Sample.envOk (Sample.world Sample.listState)))
  = Some Sample.stone.
Proof. vm_compute. reflexivity. Qed.

Example next_from_last_is_noop :
  run (onNextClick [Sample.apple; Sample.stone; Sample.river] Sample.river)
      Sample.envOk (Sample.world Sample.listState)
  = Sample.world Sample.listState.
Proof. vm_compute. reflexivity. Qed.

(** * Further properties of the component *)

(** ** [trim] and the name field *)

Lemma trimStart_head (s : jsstring) (c : code_unit) (rest : jsstring) :
  trimStart s = c :: rest -> isWhiteSpace c = false.
Proof.
  induction s as [|x s IH]; simpl; [discriminate|].
  destruct (isWhiteSpace x) eqn:E; [exact IH|].
  intros H; injection H as -> _; exact E.
Qed.

Lemma trimStart_fixed (s : jsstring) :
  (forall c rest, s = c :: rest -> isWhiteSpace c = false) -> trimStart s = s.
Proof.
  destruct s as [|x s]; simpl; [reflexivity|].
  intros H; rewrite (H x s eq_refl); reflexivity.
Qed.

Lemma trimStart_app_whitespace (a b : jsstring) :
  WhitespaceOnly a -> trimStart (a ++ b) = trimStart b.
Proof.
  induction 1 as [|x a Hx Ha IH]; simpl; [reflexivity|].
  rewrite Hx; exact IH.
Qed.

(** [trimStart] removes a run of white space from the front, nothing else. *)
Lemma trimStart_split (s : jsstring) :
  exists a, s = a ++ trimStart s /\ WhitespaceOnly a.
Proof.
  induction s as [|x s [a [E Ha]]]; simpl.
  - exists []; split; [reflexivity | constructor].
  - destruct (isWhiteSpace x) eqn:Ex.
    + exists (x :: a); split; [simpl; congruence | constructor; assumption].
    + exists []; split; [reflexivity | constructor].
Qed.

(** [trim] removes a run of white space from each end, nothing else. *)
Lemma trim_split (s : jsstring) :
  exists a b, s = a ++ trim s ++ b /\ WhitespaceOnly a /\ WhitespaceOnly b.
Proof.
  destruct (trimStart_split s) as [a [Ea Ha]].
  destruct (trimStart_split (rev (trimStart s))) as [b [Eb Hb]].
  exists a, (rev b); repeat split; try assumption.
  - unfold trim, trimEnd.
    apply (f_equal (@rev code_unit)) in Eb.
    rewrite rev_involutive, rev_app_distr in Eb.
    rewrite <- Eb; exact Ea.
  - apply WhitespaceOnly_rev; assumption.
Qed.

Lemma trim_Trimmed (s : jsstring) : Trimmed (trim s).
Proof.
  split.
  - intros c rest E.
    destruct (trimStart_split (rev (trimStart s))) as [b [Eb _]].
    apply (trimStart_head s (c := c) (rest := rest ++ rev b)).
    apply (f_equal (@rev code_unit)) in Eb.
    rewrite rev_involutive, rev_app_distr in Eb.
    change (rev (trimStart (rev (trimStart s)))) with (trim s) in Eb.
    rewrite Eb, E; reflexivity.
  - intros c front E.
    apply (trimStart_head (rev (trimStart s)) (c := c) (rest := rev front)).
    apply (f_equal (@rev code_unit)) in E.
    unfold trim, trimEnd in E; rewrite rev_involutive, rev_app_distr in E.
    exact E.
Qed.

Lemma Trimmed_rev_fixed (s : jsstring) :
  Trimmed s -> trimStart (rev s) = rev s.
Proof.
  intros [_ Hlast]; apply trimStart_fixed; intros c rest E.
  apply (Hlast c (rev rest)).
  apply (f_equal (@rev code_unit)) in E; rewrite rev_involutive in E.
  exact E.
Qed.

(** White space around a trimmed string is all that [trim] removes. *)
Lemma trim_surrounded (a n b : jsstring) :
  Trimmed n -> WhitespaceOnly a -> WhitespaceOnly b -> trim (a ++ n ++ b) = n.
Proof.
  intros Hn Ha Hb; unfold trim, trimEnd.
  rewrite (trimStart_app_whitespace _ Ha).
  destruct n as [|c n].
  - simpl; rewrite (proj2 (trimStart_nil_iff b) Hb); reflexivity.
  - assert (E : trimStart ((c :: n) ++ b) = (c :: n) ++ b).
    { apply trimStart_fixed; intros c' rest H; injection H as <- _.
      exact (proj1 Hn c n eq_refl). }
    rewrite E, rev_app_distr, trimStart_app_whitespace
      by (apply WhitespaceOnly_rev; assumption).
    rewrite (Trimmed_rev_fixed Hn), rev_involutive; reflexivity.
Qed.

Lemma trim_idempotent (s : jsstring) : trim (trim s) = trim s.
Proof.
  rewrite <- (app_nil_r (trim s)) at 1.
  apply (trim_surrounded (a := []) (b := [])); [apply trim_Trimmed | constructor ..].
Qed.

(** X1. Whatever is typed into the name input, the form's name is the
    value without the white space at its two ends, and nothing else is
    removed; the other three fields of the form are left as they were. *)
Theorem name_input_is_trimmed (value : jsstring) (env : Env) (w : World) :
  let form' := formData (ui (run (handleInputChange Fname value) env w)) in
  Trimmed (f_name form')
  /\ (exists a b, value = a ++ f_name form' ++ b
                  /\ WhitespaceOnly a /\ WhitespaceOnly b)
  /\ f_singular form' = f_singular (formData (ui w))
  /\ f_plural form' = f_plural (formData (ui w))
  /\ f_status form' = f_status (formData (ui w)).
Proof.
  simpl; split; [apply trim_Trimmed|].
  split; [apply trim_split|]; auto.
Qed.

(** X2. White space typed at an end of the name never stays: when the name
    held is n, trimmed, and the input reports n with white space added
    before or after it, the form's name is n again. *)
Theorem name_input_drops_typed_space (a n b : jsstring) (env : Env) (w : World) :
  Trimmed n -> WhitespaceOnly a -> WhitespaceOnly b ->
  f_name (formData (ui (run (handleInputChange Fname (a ++ n ++ b)) env w))) = n.
Proof. intros Hn Ha Hb; simpl; apply trim_surrounded; assumption. Qed.

Lemma name_input_drops_typed_space_witness :
  f_name (formData (ui (run (handleInputChange Fname (js "red "))
                            Sample.envOk (Sample.world Sample.createState))))
  = js "red".
Proof.
  apply (name_input_drops_typed_space (a := []) (n := js "red") (b := js " ")).
  - split; intros c l E.
    + injection E as <- _; reflexivity.
    + change (js "red") with ([114; 101]%N ++ [100%N]) in E.
      apply app_inj_tail in E; destruct E as [_ <-]; reflexivity.
  - constructor.
  - repeat constructor.
Defined.

(** ** More on the filter *)

Lemma Substring_refl (s : jsstring) : Substring s s.
Proof. exists [], []; rewrite app_nil_r; reflexivity. Qed.

Lemma matchesStatus_All (r : AppRecord) : matchesStatus All r = true.
Proof. reflexivity. Qed.

Lemma filter_all_true {A} (p : A -> bool) (l : list A) :
  (forall x, In x l -> p x = true) -> filter p l = l.
Proof.
  induction l as [|x l IH]; simpl; intros H; [reflexivity|].
  rewrite (H x (or_introl eq_refl)), IH; auto.
Qed.

(** X3. With a search text that is empty or white space only and the status
    filter on All, the table shows the whole record list. *)
Theorem blank_search_shows_everything (toLowerCase : jsstring -> jsstring)
    (L : list AppRecord) (q : jsstring) :
  WhitespaceOnly q -> filteredRecords toLowerCase L q All = L.
Proof.
  intros Hq; apply filter_all_true; intros r _.
  rewrite matchesStatus_All, andb_true_r.
  apply matchesSearch_spec; left; exact Hq.
Qed.

Lemma blank_search_shows_everything_witness :
  filteredRecords toLowerCaseLatin [Sample.apple; Sample.stone; Sample.river]
    (js "   ") All
  = [Sample.apple; Sample.stone; Sample.river].
Proof.
  apply (@blank_search_shows_everything toLowerCaseLatin
           [Sample.apple; Sample.stone; Sample.river] (js "   ")).
  repeat constructor.
Defined.

(** X4. Searching for the exact text of a record's name, singular or plural
    finds that record, under any status filter the record passes. *)
Theorem exact_field_search_finds_record (toLowerCase : jsstring -> jsstring)
    (L : list AppRecord) (s : StatusFilter) (r : AppRecord) :
  In r L -> s = All \/ filterValue s = status r ->
  In r (filteredRecords toLowerCase L (name r) s)
  /\ In r (filteredRecords toLowerCase L (singular r) s)
  /\ In r (filteredRecords toLowerCase L (plural r) s).
Proof.
  intros Hin Hs.
  repeat split; apply filteredRecords_In; (split; [exact Hin|]);
    (split; [|exact Hs]); unfold PassesSearch; auto using Substring_refl.
Qed.

Lemma exact_field_search_finds_record_witness :
  In Sample.stone
     (filteredRecords toLowerCaseLatin [Sample.apple; Sample.stone; Sample.river]
        (js "stones") Inactive).
Proof.
  apply (@exact_field_search_finds_record toLowerCaseLatin
           [Sample.apple; Sample.stone; Sample.river] Inactive Sample.stone).
  - right; left; reflexivity.
  - right; reflexivity.
Defined.

(** X5. The search ignores case: two search texts with the same lower-case
    form, both blank or both not, give the same filtered list. *)
Theorem search_ignores_case (toLowerCase : jsstring -> jsstring)
    (L : list AppRecord) (q1 q2 : jsstring) (s : StatusFilter) :
  toLowerCase q1 = toLowerCase q2 ->
  (trim q1 = [] <-> trim q2 = []) ->
  filteredRecords toLowerCase L q1 s = filteredRecords toLowerCase L q2 s.
Proof.
  intros Hl Hb; unfold filteredRecords; apply filter_ext; intros r.
  unfold matchesSearch; rewrite Hl.
  destruct (trim q1) as [|c1 t1]; destruct (trim q2) as [|c2 t2];
    try reflexivity.
  - discriminate (proj1 Hb eq_refl).
  - discriminate (proj2 Hb eq_refl).
Qed.

Lemma search_ignores_case_witness :
  filteredRecords toLowerCaseLatin [Sample.apple; Sample.stone] (js "StONe") All
  = filteredRecords toLowerCaseLatin [Sample.apple; Sample.stone] (js "stone") All.
Proof.
  apply (@search_ignores_case toLowerCaseLatin [Sample.apple; Sample.stone]
           (js "StONe") (js "stone") All).
  - reflexivity.
  - split; intros H; vm_compute in H; discriminate H.
Defined.

Lemma matchesStatus_exclusive (r : AppRecord) :
  matchesStatus Active r = true -> matchesStatus Inactive r = true -> False.
Proof.
  intros H1 H2; apply matchesStatus_spec in H1, H2.
  destruct H1 as [H1 | H1]; [discriminate|].
  destruct H2 as [H2 | H2]; [discriminate|].
  rewrite <- H1 in H2; discriminate H2.
Qed.

(** X6. The status filter refines the All view: the list shown under Active
    or Inactive is the All list filtered by that status, so its records
    have exactly that status and occur in the All list; no record is shown
    under both Active and Inactive, and the two lists together are no
    longer than the All list. *)
Theorem status_filter_refines_all (toLowerCase : jsstring -> jsstring)
    (L : list AppRecord) (q : jsstring) :
  (forall s, filteredRecords toLowerCase L q s
             = filter (matchesStatus s) (filteredRecords toLowerCase L q All))
  /\ (forall s r, In r (filteredRecords toLowerCase L q s) ->
                  In r (filteredRecords toLowerCase L q All)
                  /\ (s <> All -> status r = filterValue s))
  /\ (forall r, In r (filteredRecords toLowerCase L q Active) ->
                ~ In r (filteredRecords toLowerCase L q Inactive))
  /\ List.length (filteredRecords toLowerCase L q Active)
     + List.length (filteredRecords toLowerCase L q Inactive)
     <= List.length (filteredRecords toLowerCase L q All).
Proof.
  assert (E : forall s, filteredRecords toLowerCase L q s
              = filter (matchesStatus s) (filteredRecords toLowerCase L q All)).
  { intros s; unfold filteredRecords.
    induction L as [|x L IH]; simpl; [reflexivity|].
    rewrite matchesStatus_All, andb_true_r.
    destruct (matchesSearch toLowerCase q x); simpl;
      [destruct (matchesStatus s x); rewrite IH; reflexivity | exact IH]. }
  split; [exact E|].
  split; [|split].
  - intros s r H; rewrite E in H; apply filter_In in H; destruct H as [H1 H2].
    split; [exact H1|].
    intros Hs; apply matchesStatus_spec in H2; destruct H2 as [H2 | H2];
      [contradiction | symmetry; exact H2].
  - intros r H1 H2; rewrite E in H1, H2.
    apply filter_In in H1, H2.
    exact (matchesStatus_exclusive r (proj2 H1) (proj2 H2)).
  - rewrite (E Active), (E Inactive); clear E.
    induction (filteredRecords toLowerCase L q All) as [|x l IH];
      simpl; [lia|].
    destruct (matchesStatus Active x) eqn:Ea,
             (matchesStatus Inactive x) eqn:Ei; simpl; try lia.
    destruct (matchesStatus_exclusive x Ea Ei).
Qed.

(** X7. The placeholder row of the table: it invites to add a first record
    exactly when there are no records at all, whatever the search and the
    filter; it says that nothing matches exactly when there are records
    and none passes; there is no placeholder exactly when some record is
    shown. *)
Theorem placeholder_row_cases (toLowerCase : jsstring -> jsstring)
    (L : list AppRecord) (q : jsstring) (s : StatusFilter) :
  (emptyRow L (filteredRecords toLowerCase L q s) = Some NoRecordsFound
   <-> L = [])
  /\ (emptyRow L (filteredRecords toLowerCase L q s) = Some NoRecordsMatch
      <-> L <> [] /\ filteredRecords toLowerCase L q s = [])
  /\ (emptyRow L (filteredRecords toLowerCase L q s) = None
      <-> filteredRecords toLowerCase L q s <> []).
Proof.
  unfold emptyRow.
  destruct L as [|x L].
  - simpl; repeat split; try discriminate; try tauto; intros [H _]; tauto.
  - destruct (filteredRecords toLowerCase (x :: L) q s) as [|y l]; simpl;
      repeat split; try discriminate; try tauto;
      try (intros [_ H]; discriminate H).
Qed.

(** ** More on the details modal *)

Lemma findIndexFrom_none {A} (p : A -> bool) (l : list A) :
  forall i : Z, (0 <= i)%Z ->
    (findIndexFrom p l i = (-1)%Z <-> forall x, In x l -> p x = false).
Proof.
  induction l as [|x l IH]; intros i Hi; simpl.
  - split; [intros _ y [] | reflexivity].
  - destruct (p x) eqn:E.
    + split; [lia | intros H; rewrite (H x (or_introl eq_refl)) in E; discriminate].
    + rewrite (IH (i + 1)%Z) by lia.
      split; [intros H y [<- | Hy]; auto | intros H y Hy; auto].
Qed.

(** What [findIndex] finds passes the test, and nothing before it does. *)
Lemma findIndexFrom_found {A} (p : A -> bool) (l : list A) :
  forall (i k : Z), (0 <= i)%Z ->
    findIndexFrom p l i = k -> k <> (-1)%Z ->
    (i <= k)%Z
    /\ (exists x, nth_error l (Z.to_nat (k - i)) = Some x /\ p x = true)
    /\ (forall j y, (j < Z.to_nat (k - i))%nat ->
                    nth_error l j = Some y -> p y = false).
Proof.
  induction l as [|x l IH]; intros i k Hi E Hk; simpl in E; [congruence|].
  destruct (p x) eqn:Ex.
  - subst k; rewrite Z.sub_diag; simpl.
    split; [lia|]. split; [eauto | intros j y Hj; lia].
  - destruct (IH (i + 1)%Z k ltac:(lia) E Hk) as [Hik [[y [Hy Hp]] Hbefore]].
    split; [lia|].
    replace (Z.to_nat (k - i)) with (S (Z.to_nat (k - (i + 1)))) by lia.
    split; [exists y; simpl; auto|].
    intros [|j] z Hj Hz; simpl in Hz.
    + injection Hz as <-; exact Ex.
    + apply (Hbefore j z); [lia | exact Hz].
Qed.

(** The first index at which an element passes the test is what
    [findIndex] returns. *)
Lemma findIndexFrom_first {A} (p : A -> bool) (l : list A) :
  forall (i : Z) (j : nat) (x : A),
    nth_error l j = Some x -> p x = true ->
    (forall j' y, (j' < j)%nat -> nth_error l j' = Some y -> p y = false) ->
    findIndexFrom p l i = (i + Z.of_nat j)%Z.
Proof.
  induction l as [|a l IH]; intros i j x Hn Hp Hb.
  - destruct j; discriminate.
  - simpl; destruct j as [|j]; simpl in Hn.
    + injection Hn as ->; rewrite Hp; lia.
    + rewrite (Hb 0%nat a ltac:(lia) eq_refl).
      rewrite (IH (i + 1)%Z j x Hn Hp); [lia|].
      intros j' y Hj Hy; apply (Hb (S j') y); [lia | exact Hy].
Qed.

Lemma at_index_of_nat {A} (l : list A) (j : nat) :
  at_index l (Z.of_nat j) = nth_error l j.
Proof.
  unfold at_index.
  destruct (Z.of_nat j <? 0)%Z eqn:E; [apply Z.ltb_lt in E; lia|].
  rewrite Nat2Z.id; reflexivity.
Qed.

Lemma at_index_Some {A} (l : list A) (k : Z) (x : A) :
  at_index l k = Some x -> (0 <= k)%Z /\ nth_error l (Z.to_nat k) = Some x.
Proof.
  unfold at_index; destruct (k <? 0)%Z eqn:E; [discriminate|].
  apply Z.ltb_ge in E; auto.
Qed.

Lemma streq_false_iff (a b : jsstring) : streq a b = false <-> a <> b.
Proof.
  rewrite <- streq_true_iff; destruct (streq a b); split; congruence.
Qed.

(** X8. The index the details modal computes for the selected record: it
    is -1 exactly when no record of the filtered list has the selected id;
    otherwise the record at that index has the selected id and no record
    before it has. *)
Theorem currentIndex_is_first_match (filtered : list AppRecord)
    (selected : AppRecord) :
  (currentIndex filtered selected = (-1)%Z
   <-> forall r, In r filtered -> id r <> id selected)
  /\ (forall r, at_index filtered (currentIndex filtered selected) = Some r ->
                id r = id selected)
  /\ (forall j r, (0 <= j < currentIndex filtered selected)%Z ->
                  at_index filtered j = Some r -> id r <> id selected).
Proof.
  unfold currentIndex, findIndex.
  set (p := fun r : AppRecord => streq (id r) (id selected)).
  split; [|split].
  - rewrite (findIndexFrom_none p filtered (i := 0%Z)) by lia.
    split; intros H r Hr.
    + apply streq_false_iff; exact (H r Hr).
    + unfold p; apply streq_false_iff; exact (H r Hr).
  - intros r Hr; apply at_index_Some in Hr; destruct Hr as [Hk Hr].
    destruct (findIndexFrom_found p filtered (i := 0%Z) ltac:(lia) eq_refl)
      as [_ [[x [Hx Hp]] _]]; [lia|].
    rewrite Z.sub_0_r, Hr in Hx; injection Hx as <-.
    apply streq_true_iff; exact Hp.
  - intros j r Hj Hr; apply at_index_Some in Hr; destruct Hr as [_ Hr].
    destruct (findIndexFrom_found p filtered (i := 0%Z) ltac:(lia) eq_refl)
      as [_ [_ Hb]]; [lia|].
    apply streq_false_iff; apply (Hb (Z.to_nat j) r); [lia | exact Hr].
Qed.

Lemma rowsFrom_In (l : list AppRecord) :
  forall (i k : Z) (r : AppRecord),
    In (k, r) (rowsFrom i l) ->
    (i < k)%Z /\ nth_error l (Z.to_nat (k - 1 - i)) = Some r.
Proof.
  induction l as [|x l IH]; intros i k r; simpl; [intros []|].
  intros [E | H].
  - injection E as <- <-.
    replace (i + 1 - 1 - i)%Z with 0%Z by lia; simpl; split; [lia | reflexivity].
  - destruct (IH _ _ _ H) as [Hk Hn]; split; [lia|].
    replace (Z.to_nat (k - 1 - i)) with (S (Z.to_nat (k - 1 - (i + 1)))) by lia.
    exact Hn.
Qed.

(** With unique ids, a record is found at the position it stands at. *)
Lemma currentIndex_unique_ids (filtered : list AppRecord) (j : nat)
    (r : AppRecord) :
  NoDup (map id filtered) -> nth_error filtered j = Some r ->
  currentIndex filtered r = Z.of_nat j.
Proof.
  intros Hnd Hn; unfold currentIndex, findIndex.
  rewrite (@findIndexFrom_first _ (fun x => streq (id x) (id r)) filtered
             0%Z j r);
    [lia | exact Hn | apply streq_refl |].
  intros j' y Hj Hy; apply streq_false_iff; intros E.
  assert (Hj' : (j' < List.length (map id filtered))%nat).
  { rewrite length_map; apply nth_error_Some; congruence. }
  pose proof (proj1 (NoDup_nth_error (map id filtered)) Hnd j' j Hj') as Hu.
  rewrite (map_nth_error id _ _ Hy), (map_nth_error id _ _ Hn), E in Hu.
  specialize (Hu eq_refl); lia.
Qed.

(** X9. When the ids of the filtered list are unique, the position the
    details modal shows for a record is the number of its row in the
    table, and that number lies between 1 and the total shown. *)
Theorem modal_position_is_row_number (filtered : list AppRecord)
    (k : Z) (r : AppRecord) :
  NoDup (map id filtered) -> In (k, r) (tableRows filtered) ->
  recordNum filtered r = k /\ (1 <= k <= totalNum filtered)%Z.
Proof.
  intros Hnd Hin; apply rowsFrom_In in Hin; destruct Hin as [Hk Hn].
  rewrite Z.sub_0_r in Hn.
  assert (Hlt : (Z.to_nat (k - 1) < List.length filtered)%nat)
    by (apply nth_error_Some; congruence).
  unfold recordNum, totalNum.
  rewrite (currentIndex_unique_ids _ _ Hnd Hn).
  destruct (Z.of_nat (Z.to_nat (k - 1)) >=? 0)%Z eqn:E; [lia|].
  rewrite Z.geb_leb in E; apply Z.leb_gt in E; lia.
Qed.

Lemma modal_position_is_row_number_witness :
  recordNum [Sample.apple; Sample.stone; Sample.river] Sample.river = 3%Z.
Proof.
  apply (@modal_position_is_row_number
           [Sample.apple; Sample.stone; Sample.river] 3%Z Sample.river).
  - repeat constructor; simpl; intuition discriminate.
  - right; right; left; reflexivity.
Defined.

Lemma currentIndex_hit (filtered : list AppRecord) (selected r : AppRecord) :
  at_index filtered (currentIndex filtered selected) = Some r ->
  id r = id selected.
Proof.
  intros Hr; apply at_index_Some in Hr; destruct Hr as [Hk Hr].
  unfold currentIndex, findIndex in *.
  destruct (@findIndexFrom_found _ (fun x => streq (id x) (id selected))
              filtered 0%Z _ ltac:(lia) eq_refl) as [_ [[x [Hx Hp]] _]]; [lia|].
  rewrite Z.sub_0_r, Hr in Hx; injection Hx as <-.
  apply streq_true_iff; exact Hp.
Qed.

Lemma onNextClick_selects (filtered : list AppRecord) (selected : AppRecord)
    (env : Env) (w : World) :
  hasNext filtered selected = true ->
  exists nxt,
    at_index filtered (currentIndex filtered selected + 1)%Z = Some nxt
    /\ run (onNextClick filtered selected) env w
       = run (setSelectedRecord (Some nxt)) env w.
Proof.
  intros H; pose proof (proj1 (hasNext_iff filtered selected) H) as Hi.
  destruct (@at_index_in_bounds _ filtered (currentIndex filtered selected + 1)%Z)
    as [r [Hr _]]; [lia|].
  exists r; split; [exact Hr|].
  unfold onNextClick; rewrite H, Hr; reflexivity.
Qed.

Lemma onPreviousClick_selects (filtered : list AppRecord) (selected : AppRecord)
    (env : Env) (w : World) :
  hasPrev filtered selected = true ->
  exists prv,
    at_index filtered (currentIndex filtered selected - 1)%Z = Some prv
    /\ run (onPreviousClick filtered selected) env w
       = run (setSelectedRecord (Some prv)) env w.
Proof.
  intros H; pose proof (proj1 (hasPrev_iff filtered selected) H) as Hi.
  destruct (currentIndex_range filtered selected) as [E | Hr']; [lia|].
  destruct (@at_index_in_bounds _ filtered (currentIndex filtered selected - 1)%Z)
    as [r [Hr _]]; [lia|].
  exists r; split; [exact Hr|].
  unfold onPreviousClick; rewrite H, Hr; reflexivity.
Qed.

Lemma currentIndex_at_unique (filtered : list AppRecord) (k : Z) (r : AppRecord) :
  NoDup (map id filtered) -> at_index filtered k = Some r ->
  currentIndex filtered r = k.
Proof.
  intros Hnd Hr; apply at_index_Some in Hr; destruct Hr as [Hk Hr].
  rewrite (currentIndex_unique_ids _ _ Hnd Hr); lia.
Qed.

Section NavigationRoundTrip.

Variable toLowerCase : jsstring -> jsstring.

Lemma dispatch_NextClick (env : Env) (w : World) (selected : AppRecord) :
  selectedRecord (ui w) = Some selected ->
  run (dispatch toLowerCase NextClick) env w
  = run (onNextClick (rendered toLowerCase (ui w)) selected) env w.
Proof.
  intros H; unfold run, dispatch, bind, getState; rewrite H; reflexivity.
Qed.

Lemma dispatch_PreviousClick (env : Env) (w : World) (selected : AppRecord) :
  selectedRecord (ui w) = Some selected ->
  run (dispatch toLowerCase PreviousClick) env w
  = run (onPreviousClick (rendered toLowerCase (ui w)) selected) env w.
Proof.
  intros H; unfold run, dispatch, bind, getState; rewrite H; reflexivity.
Qed.

(** X10. With unique ids in the filtered list, Next followed by Previous,
    and Previous followed by Next, come back: the record selected in the
    end is the record of the filtered list that has the id selected at the
    start, the one at the index the modal started from. *)
Theorem navigation_round_trip (env : Env) (w : World) (selected : AppRecord) :
  selectedRecord (ui w) = Some selected ->
  NoDup (map id (rendered toLowerCase (ui w))) ->
  let filtered := rendered toLowerCase (ui w) in
  (hasNext filtered selected = true ->
   exists back,
     selectedRecord
       (ui (run (dispatch toLowerCase PreviousClick) env
                (run (dispatch toLowerCase NextClick) env w))) = Some back
     /\ id back = id selected
     /\ at_index filtered (currentIndex filtered selected) = Some back)
  /\ (hasPrev filtered selected = true ->
      exists back,
        selectedRecord
          (ui (run (dispatch toLowerCase NextClick) env
                   (run (dispatch toLowerCase PreviousClick) env w))) = Some back
        /\ id back = id selected
        /\ at_index filtered (currentIndex filtered selected) = Some back).
Proof.
  intros Hsel Hnd filtered.
  assert (Hback : (0 <= currentIndex filtered selected
                      < Z.of_nat (List.length filtered))%Z ->
                  exists back,
                    at_index filtered (currentIndex filtered selected) = Some back
                    /\ id back = id selected).
  { intros Hr; destruct (@at_index_in_bounds _ filtered _ Hr) as [b [Hb _]].
    exists b; split; [exact Hb | exact (@currentIndex_hit _ _ _ Hb)]. }
  split; intros H.
  - pose proof (proj1 (hasNext_iff filtered selected) H) as Hi.
    destruct (onNextClick_selects filtered selected env w H) as [nxt [Hn En]].
    destruct Hback as [back [Hb Hid]]; [lia|].
    exists back; split; [|split; assumption].
    rewrite (@dispatch_NextClick env w _ Hsel); fold filtered; rewrite En.
    rewrite (@dispatch_PreviousClick env
               (run (setSelectedRecord (Some nxt)) env w) nxt eq_refl).
    change (rendered toLowerCase
              (ui (run (setSelectedRecord (Some nxt)) env w))) with filtered.
    assert (Ei : currentIndex filtered nxt
                 = (currentIndex filtered selected + 1)%Z)
      by exact (@currentIndex_at_unique _ _ _ Hnd Hn).
    unfold run, onPreviousClick, hasPrev; rewrite Ei.
    replace (currentIndex filtered selected + 1 >? 0)%Z with true
      by (symmetry; apply Z.gtb_lt; lia).
    replace (currentIndex filtered selected + 1 - 1)%Z
      with (currentIndex filtered selected) by lia.
    rewrite Hb; reflexivity.
  - pose proof (proj1 (hasPrev_iff filtered selected) H) as Hi.
    destruct (currentIndex_range filtered selected) as [E | Hr]; [lia|].
    destruct (onPreviousClick_selects filtered selected env w H) as [prv [Hp Ep]].
    destruct Hback as [back [Hb Hid]]; [lia|].
    exists back; split; [|split; assumption].
    rewrite (@dispatch_PreviousClick env w _ Hsel); fold filtered; rewrite Ep.
    rewrite (@dispatch_NextClick env
               (run (setSelectedRecord (Some prv)) env w) prv eq_refl).
    change (rendered toLowerCase
              (ui (run (setSelectedRecord (Some prv)) env w))) with filtered.
    assert (Ei : currentIndex filtered prv
                 = (currentIndex filtered selected - 1)%Z)
      by exact (@currentIndex_at_unique _ _ _ Hnd Hp).
    unfold run, onNextClick, hasNext; rewrite Ei.
    replace (currentIndex filtered selected - 1
               <? Z.of_nat (List.length filtered) - 1)%Z with true
      by (symmetry; apply Z.ltb_lt; lia).
    replace (currentIndex filtered selected - 1 >=? 0)%Z with true
      by (symmetry; rewrite Z.geb_leb; apply Z.leb_le; lia).
    replace (currentIndex filtered selected - 1 + 1)%Z
      with (currentIndex filtered selected) by lia.
    simpl; rewrite Hb; reflexivity.
Qed.

End NavigationRoundTrip.

Lemma navigation_round_trip_witness :
  exists back,
    selectedRecord
      (ui (run (dispatch toLowerCaseLatin PreviousClick) Sample.envOk
               (run (dispatch toLowerCaseLatin NextClick) Sample.envOk
                    (Sample.world Tour.stoneSelected)))) = Some back
    /\ id back = js "r2".
Proof.
  destruct (proj1 (@navigation_round_trip toLowerCaseLatin Sample.envOk
                     (Sample.world Tour.stoneSelected) Sample.stone
                     eq_refl
                     ltac:(vm_compute; repeat constructor; simpl;
                           intuition discriminate))
                  eq_refl) as [back [H1 [H2 _]]].
  exists back; split; assumption.
Defined.

(** ** More on the subscription callback *)

Lemma decode_ticks (doc : QueryDocumentSnapshot) (env : Env) (w : World) :
  ticks (snd (decode doc env w)) = ticks w + missingTimestamps doc.
Proof.
  unfold decode, bind, dateOrNow, ret, newDate, missingTimestamps.
  destruct (d_createdAt (data doc)), (d_updatedAt (data doc)); simpl; lia.
Qed.

(** The decoded record depends on the document, the clock and the number
    of clock reads made before, on nothing else. *)
Lemma decode_depends_on_ticks (doc : QueryDocumentSnapshot) (env : Env)
    (w1 w2 : World) :
  ticks w1 = ticks w2 ->
  fst (decode doc env w1) = fst (decode doc env w2).
Proof.
  intros E; unfold decode, bind, dateOrNow, ret, newDate.
  destruct (d_createdAt (data doc)), (d_updatedAt (data doc)); simpl;
    rewrite ?E; reflexivity.
Qed.

Lemma forEachPush_ticks (docs : list QueryDocumentSnapshot) :
  forall (acc : list AppRecord) (env : Env) (w : World),
    ticks (snd (forEachPush docs acc env w)) = ticks w + missingInSnapshot docs.
Proof.
  unfold missingInSnapshot.
  induction docs as [|doc docs IH]; intros acc env w; simpl; [lia|].
  destruct (decode_returns doc env w) as [r [w1 [E _]]].
  pose proof (decode_ticks doc env w) as Ht; rewrite E in Ht; simpl in Ht.
  unfold bind; rewrite E, IH, Ht; lia.
Qed.

Lemma forEachPush_depends_on_ticks (docs : list QueryDocumentSnapshot) :
  forall (acc : list AppRecord) (env : Env) (w1 w2 : World),
    ticks w1 = ticks w2 ->
    fst (forEachPush docs acc env w1) = fst (forEachPush docs acc env w2).
Proof.
  induction docs as [|doc docs IH]; intros acc env w1 w2 E; simpl;
    [reflexivity|].
  destruct (decode_returns doc env w1) as [r1 [w1' [E1 _]]].
  destruct (decode_returns doc env w2) as [r2 [w2' [E2 _]]].
  pose proof (decode_depends_on_ticks doc env w1 w2 E) as Hr.
  pose proof (decode_ticks doc env w1) as H1.
  pose proof (decode_ticks doc env w2) as H2.
  rewrite E1 in Hr, H1; rewrite E2 in Hr, H2; simpl in Hr, H1, H2.
  injection Hr as <-.
  unfold bind; rewrite E1, E2; apply IH; congruence.
Qed.

Lemma onSnapshotCallback_run (snapshot : list QueryDocumentSnapshot)
    (env : Env) (w : World) :
  exists rs,
    fst (forEachPush snapshot [] env w) = Returned rs
    /\ Forall2 DecodedFrom snapshot rs
    /\ onSnapshotCallback snapshot env w
       = (Returned tt,
          {| ui := {| records := rs; searchQuery := searchQuery (ui w);
                      statusFilter := statusFilter (ui w);
                      showModal := showModal (ui w);
                      editingRecord := editingRecord (ui w);
                      selectedRecord := selectedRecord (ui w);
                      formData := formData (ui w) |};
             toasts := toasts w; console := console w; writes := writes w;
             ticks := ticks w + missingInSnapshot snapshot |}).
Proof.
  destruct (forEachPush_returns snapshot [] env w)
    as [rs [w' [E [HF [Hu [Ht [Hc Hw]]]]]]].
  pose proof (forEachPush_ticks snapshot [] env w) as Hk.
  rewrite E in Hk; simpl in *.
  exists rs; rewrite E; split; [reflexivity|]; split; [exact HF|].
  unfold onSnapshotCallback, bind; rewrite E; simpl.
  unfold setRecords, setState; rewrite Hu, Ht, Hc, Hw, Hk; reflexivity.
Qed.

Lemma Forall2_DecodedFrom_ids (docs : list QueryDocumentSnapshot)
    (rs : list AppRecord) :
  Forall2 DecodedFrom docs rs -> map id rs = map doc_id docs.
Proof.
  induction 1 as [|doc r docs rs [Hid _] _ IH]; simpl; congruence.
Qed.

(** X11. A push replaces the record list by one record per document, with
    the documents' ids and in the snapshot's order, whatever the list held
    before; it leaves the search text, the status filter, the form, the
    editing target and the selection as they were, shows no toast, issues
    no write and does not throw. *)
Theorem push_replaces_record_list (snapshot : list QueryDocumentSnapshot)
    (env : Env) (w : World) :
  let w' := run (onSnapshotCallback snapshot) env w in
  map id (records (ui w')) = map doc_id snapshot
  /\ (forall w2, ticks w2 = ticks w ->
        records (ui (run (onSnapshotCallback snapshot) env w2))
        = records (ui w'))
  /\ searchQuery (ui w') = searchQuery (ui w)
  /\ statusFilter (ui w') = statusFilter (ui w)
  /\ showModal (ui w') = showModal (ui w)
  /\ formData (ui w') = formData (ui w)
  /\ editingRecord (ui w') = editingRecord (ui w)
  /\ selectedRecord (ui w') = selectedRecord (ui w)
  /\ toasts w' = toasts w
  /\ writes w' = writes w
  /\ result (onSnapshotCallback snapshot) env w = Returned tt.
Proof.
  destruct (onSnapshotCallback_run snapshot env w) as [rs [Ers [HF E]]].
  unfold run, result; rewrite E; simpl.
  split; [exact (Forall2_DecodedFrom_ids HF)|].
  split; [|repeat split; reflexivity].
  intros w2 Ht.
  destruct (onSnapshotCallback_run snapshot env w2) as [rs2 [Ers2 [_ E2]]].
  rewrite E2; simpl.
  pose proof (forEachPush_depends_on_ticks snapshot [] env w2 w Ht) as Hd.
  congruence.
Qed.

(** X12. Decoding reads the clock once for every timestamp a document
    lacks, and not otherwise: after a push the number of clock reads has
    grown by the number of missing timestamps, and a snapshot that lacks
    none decodes to the same records whatever the clock says. *)
Theorem push_reads_clock_per_missing_timestamp
    (snapshot : list QueryDocumentSnapshot) (env : Env) (w : World) :
  ticks (run (onSnapshotCallback snapshot) env w)
  = ticks w + missingInSnapshot snapshot
  /\ (missingInSnapshot snapshot = 0 ->
      forall env' w2,
        records (ui (run (onSnapshotCallback snapshot) env' w2))
        = records (ui (run (onSnapshotCallback snapshot) env w))).
Proof.
  destruct (onSnapshotCallback_run snapshot env w) as [rs [Ers [HF E]]].
  unfold run; rewrite E; simpl; split; [reflexivity|].
  intros Hm env' w2.
  destruct (onSnapshotCallback_run snapshot env' w2) as [rs2 [Ers2 [_ E2]]].
  rewrite E2; simpl.
  clear E E2 HF.
  assert (G : forall docs acc e1 e2 (u1 u2 : World),
             missingInSnapshot docs = 0 ->
             fst (forEachPush docs acc e1 u1) = fst (forEachPush docs acc e2 u2)).
  { induction docs as [|doc docs IH]; intros acc e1 e2 u1 u2 H0; simpl;
      [reflexivity|].
    unfold missingInSnapshot in H0; simpl in H0.
    assert (Hd : missingTimestamps doc = 0) by lia.
    assert (Hr : missingInSnapshot docs = 0) by (unfold missingInSnapshot; lia).
    unfold missingTimestamps in Hd.
    unfold bind, decode, dateOrNow, ret.
    destruct (d_createdAt (data doc)), (d_updatedAt (data doc));
      simpl in Hd; try lia; simpl.
    apply IH; exact Hr. }
  pose proof (G snapshot [] env' env w2 w Hm) as Hg; congruence.
Qed.

Lemma push_reads_clock_per_missing_timestamp_witness :
  records (ui (run (onSnapshotCallback [Tour.fullDoc]) Tour.envRetry
                   (Sample.world Sample.listState)))
  = records (ui (run (onSnapshotCallback [Tour.fullDoc]) Sample.envOk
                     (Sample.world initialState))).
Proof.
  apply (proj2 (push_reads_clock_per_missing_timestamp [Tour.fullDoc]
                  Sample.envOk (Sample.world initialState))).
  reflexivity.
Defined.

(** X13. No record of the local list has an empty status: after a push,
    a record's status is the document's status when the document has a
    non-empty one, and Active in every other case. *)
Theorem pushed_status_never_empty (snapshot : list QueryDocumentSnapshot)
    (env : Env) (w : World) :
  Forall (fun r => status r <> [])
         (records (ui (run (onSnapshotCallback snapshot) env w)))
  /\ Forall2 (fun doc r =>
                match d_status (data doc) with
                | Some (c :: s) => status r = c :: s
                | _ => status r = js "Active"
                end)
             snapshot
             (records (ui (run (onSnapshotCallback snapshot) env w))).
Proof.
  destruct (onSnapshotCallback_records snapshot env w) as [HF _].
  revert HF; generalize (records (ui (run (onSnapshotCallback snapshot) env w))).
  intros rs HF; induction HF as [|doc r docs rs Hd HF [IH1 IH2]];
    [split; constructor|].
  destruct Hd as [_ [_ [_ [_ Hs]]]].
  split; constructor; try assumption.
  - rewrite Hs; unfold orElse.
    destruct (d_status (data doc)) as [[|c s]|]; simpl; discriminate.
  - rewrite Hs; unfold orElse.
    destruct (d_status (data doc)) as [[|c s]|]; reflexivity.
Qed.

(** ** More on the form handlers *)

Lemma handleDelete_declined (env : Env) (w : World) (docId : jsstring) :
  confirm env "Are you sure you want to delete this record?" = false ->
  handleDelete docId env w = (Returned tt, w).
Proof.
  intros Hc; unfold handleDelete, bind, windowConfirm; rewrite Hc; reflexivity.
Qed.

(** X14. Deleting: without the user's confirmation nothing happens at
    all; with it exactly one delete of that document in the records
    collection is issued, and a success toast is shown when the backend
    resolves it, an error toast when it rejects it.  In every case the
    React state, the record list included, is left as it was: the row
    disappears only with the next push. *)
Theorem delete_needs_confirmation (docId : jsstring) (env : Env) (w : World) :
  (confirm env "Are you sure you want to delete this record?" = false ->
   handleDelete docId env w = (Returned tt, w))
  /\ (confirm env "Are you sure you want to delete this record?" = true ->
      writes (run (handleDelete docId) env w)
      = writes w ++ [DeleteDoc "records" docId]
      /\ toasts (run (handleDelete docId) env w)
         = toasts w
           ++ [if accepts env (List.length (writes w)) (DeleteDoc "records" docId)
               then ToastSuccess "Record deleted successfully"
               else ToastError "Error deleting record"])
  /\ ui (run (handleDelete docId) env w) = ui w
  /\ result (handleDelete docId) env w = Returned tt.
Proof.
  split; [apply handleDelete_declined|].
  split.
  - intros Hc; unfold run; rewrite (handleDelete_confirmed env w docId Hc).
    destruct (accepts env _ _); simpl; auto.
  - destruct (confirm env "Are you sure you want to delete this record?") eqn:Hc.
    + unfold run, result; rewrite (handleDelete_confirmed env w docId Hc).
      destruct (accepts env _ _); simpl; auto.
    + unfold run, result; rewrite (handleDelete_declined env w docId Hc); auto.
Qed.

Lemma delete_needs_confirmation_witness :
  handleDelete (js "r1") Tour.envDecline (Sample.world Sample.listState)
  = (Returned tt, Sample.world Sample.listState)
  /\ writes (run (handleDelete (js "r1")) Sample.envOk
                 (Sample.world Sample.listState))
     = [DeleteDoc "records" (js "r1")].
Proof.
  split.
  - apply (proj1 (delete_needs_confirmation (js "r1") Tour.envDecline
                    (Sample.world Sample.listState))).
    reflexivity.
  - apply (proj1 (proj2 (delete_needs_confirmation (js "r1") Sample.envOk
                           (Sample.world Sample.listState)))).
    reflexivity.
Defined.

Lemma handleCloseModal_run (env : Env) (w : World) :
  handleCloseModal env w
  = (Returned tt,
     {| ui := closedForm (ui w); toasts := toasts w; console := console w;
        writes := writes w; ticks := ticks w |}).
Proof. reflexivity. Qed.

Lemma typeInto_frame (inputs : list (FieldName * jsstring)) :
  forall (env : Env) (w : World),
  exists form,
    typeInto inputs env w
    = (Returned tt,
       {| ui := {| records := records (ui w); searchQuery := searchQuery (ui w);
                   statusFilter := statusFilter (ui w);
                   showModal := showModal (ui w);
                   editingRecord := editingRecord (ui w);
                   selectedRecord := selectedRecord (ui w);
                   formData := form |};
          toasts := toasts w; console := console w; writes := writes w;
          ticks := ticks w |}).
Proof.
  induction inputs as [|[field value] inputs IH]; intros env w; simpl.
  - exists (formData (ui w)); destruct w as [[] ? ? ? ?]; reflexivity.
  - unfold bind, handleInputChange, setFormData, setState; simpl.
    match goal with
    | |- context [typeInto inputs env ?w1] => destruct (IH env w1) as [form E]
    end.
    exists form; rewrite E; reflexivity.
Qed.

(** X15. Cancel discards whatever was done in the form: opening the form on
    a record, typing into it and cancelling leaves the same world as
    cancelling at once, with the form closed, its fields at their defaults
    and no editing target, and nothing was written or notified on the
    way. *)
Theorem cancel_discards_edits (record : AppRecord)
    (inputs : list (FieldName * jsstring)) (env : Env) (w : World) :
  let typed := run (typeInto inputs) env (run (handleEdit record) env w) in
  run handleCloseModal env typed = run handleCloseModal env w
  /\ ui (run handleCloseModal env typed) = closedForm (ui w)
  /\ writes typed = writes w
  /\ toasts typed = toasts w.
Proof.
  cbv zeta.
  set (w1 := run (handleEdit record) env w).
  destruct (typeInto_frame inputs env w1) as [form E].
  assert (Et : run (typeInto inputs) env w1 = snd (typeInto inputs env w1))
    by reflexivity.
  rewrite Et, E; clear Et E.
  unfold run; rewrite !handleCloseModal_run; simpl.
  repeat split; reflexivity.
Qed.

Lemma orElse_empty_default (s : jsstring) : orElse (Some s) [] = s.
Proof. destruct s; reflexivity. Qed.

(** X16. Saving an edit form that was not touched writes the record back
    as it was: one update of the document with the record's id, carrying
    the record's name, singular, plural, status and createdAt, and the
    clock reading as updatedAt.  A push that arrives while the form is
    open changes none of this.  A record whose name is blank cannot be
    saved that way: the submission is refused and nothing is written. *)
Theorem untouched_edit_writes_record_back (record : AppRecord)
    (snapshot : list QueryDocumentSnapshot) (env : Env) (w : World) :
  let opened :=
    run (onSnapshotCallback snapshot) env (run (handleEdit record) env w) in
  (trim (name record) <> [] ->
   writes (run handleSubmit env opened)
   = writes w
     ++ [UpdateDoc "records" (id record)
           {| w_name := name record; w_singular := singular record;
              w_plural := plural record; w_status := status record;
              w_createdAt := createdAt record;
              w_updatedAt := clock env (ticks opened) |}])
  /\ (trim (name record) = [] ->
      writes (run handleSubmit env opened) = writes w
      /\ toasts (run handleSubmit env opened)
         = toasts w ++ [ToastError "Name is required"]).
Proof.
  cbv zeta.
  set (w1 := run (handleEdit record) env w).
  destruct (onSnapshotCallback_run snapshot env w1) as [rs [_ [_ E]]].
  assert (Eo : run (onSnapshotCallback snapshot) env w1
               = snd (onSnapshotCallback snapshot env w1)) by reflexivity.
  rewrite Eo, E; clear Eo E; simpl.
  split; intros Hn.
  - unfold run at 1; rewrite handleSubmit_valid by exact Hn; simpl.
    destruct (accepts env _ _); reflexivity.
  - unfold run; rewrite handleSubmit_blank by exact Hn; simpl; auto.
Qed.

Lemma untouched_edit_writes_record_back_witness :
  writes (run handleSubmit Sample.envOk
              (run (onSnapshotCallback [Tour.fullDoc]) Sample.envOk
                   (run (handleEdit Sample.stone) Sample.envOk
                        (Sample.world Sample.listState))))
  = [UpdateDoc "records" (js "r2")
       {| w_name := js "Stone"; w_singular := js "stone";
          w_plural := js "stones"; w_status := js "Inactive";
          w_createdAt := 900%Z; w_updatedAt := 4000%Z |}].
Proof.
  apply (proj1 (untouched_edit_writes_record_back Sample.stone [Tour.fullDoc]
                  Sample.envOk (Sample.world Sample.listState))).
  vm_compute; discriminate.
Defined.

(** X17. A submission the backend resolves leaves the React state exactly
    as Cancel would, and it cannot be replayed: submitting again from the
    state it leaves is refused for want of a name, and no second write is
    issued. *)
Theorem accepted_submission_closes_form (env : Env) (w : World) :
  trim (f_name (formData (ui w))) <> [] ->
  accepts env (List.length (writes w))
          (submitCommand (ui w) (clock env (ticks w))) = true ->
  ui (run handleSubmit env w) = ui (run handleCloseModal env w)
  /\ writes (run handleSubmit env (run handleSubmit env w))
     = writes (run handleSubmit env w)
  /\ toasts (run handleSubmit env (run handleSubmit env w))
     = toasts (run handleSubmit env w) ++ [ToastError "Name is required"].
Proof.
  intros Hn Hok.
  assert (E : run handleSubmit env w
              = {| ui := closedForm (ui w);
                   toasts := toasts w ++ [ToastSuccess (successMessage (ui w))];
                   console := console w;
                   writes := writes w
                             ++ [submitCommand (ui w) (clock env (ticks w))];
                   ticks := S (ticks w) |}).
  { unfold run; rewrite (handleSubmit_valid env w Hn); simpl.
    rewrite Hok; reflexivity. }
  rewrite E; split; [reflexivity|].
  unfold run; rewrite handleSubmit_blank by reflexivity; simpl; auto.
Qed.

Lemma accepted_submission_closes_form_witness :
  writes (run handleSubmit Sample.envOk
              (run handleSubmit Sample.envOk (Sample.world Sample.createState)))
  = writes (run handleSubmit Sample.envOk (Sample.world Sample.createState)).
Proof.
  apply (@accepted_submission_closes_form Sample.envOk
           (Sample.world Sample.createState)).
  - vm_compute; discriminate.
  - reflexivity.
Defined.

(** X18. A submission the backend rejects can be retried as it stands:
    submitting again issues the same command for the same form and target,
    stamped with the next clock reading, and closes the form when the
    backend resolves it this time. *)
Theorem rejected_submission_can_be_retried (env : Env) (w : World) :
  trim (f_name (formData (ui w))) <> [] ->
  accepts env (List.length (writes w))
          (submitCommand (ui w) (clock env (ticks w))) = false ->
  writes (run handleSubmit env (run handleSubmit env w))
  = writes w ++ [submitCommand (ui w) (clock env (ticks w));
                 submitCommand (ui w) (clock env (S (ticks w)))]
  /\ (accepts env (S (List.length (writes w)))
              (submitCommand (ui w) (clock env (S (ticks w)))) = true ->
      ui (run handleSubmit env (run handleSubmit env w)) = closedForm (ui w)).
Proof.
  intros Hn Hrej.
  assert (E : run handleSubmit env w
              = {| ui := ui w;
                   toasts := toasts w
                             ++ [ToastError "Error saving record. Please try again."];
                   console := console w ++ ["Error saving record:"%string];
                   writes := writes w
                             ++ [submitCommand (ui w) (clock env (ticks w))];
                   ticks := S (ticks w) |}).
  { unfold run; rewrite (handleSubmit_valid env w Hn); simpl.
    rewrite Hrej; reflexivity. }
  rewrite E; unfold run; rewrite handleSubmit_valid by exact Hn; simpl.
  rewrite length_app, Nat.add_1_r; simpl.
  split.
  - destruct (accepts env (S (List.length (writes w))) _); simpl;
      rewrite <- app_assoc; reflexivity.
  - intros ->; reflexivity.
Qed.

Lemma rejected_submission_can_be_retried_witness :
  ui (run handleSubmit Tour.envRetry
          (run handleSubmit Tour.envRetry (Sample.world Sample.createState)))
  = closedForm Sample.createState.
Proof.
  apply (proj2 (@rejected_submission_can_be_retried Tour.envRetry
                  (Sample.world Sample.createState)
                  ltac:(vm_compute; discriminate) eq_refl)).
  reflexivity.
Defined.

(** X19. What is saved reads back: a document that holds the fields a
    valid submission wrote decodes, without a clock read, to a record with
    the form's name, singular and plural, its status (Active when the
    form's status is empty), the createdAt of the record being edited or
    the submission's clock reading when a record is created, and that
    clock reading as updatedAt. *)
Theorem written_fields_read_back (env : Env) (w : World) :
  trim (f_name (formData (ui w))) <> [] ->
  exists fields,
    (writes (run handleSubmit env w) = writes w ++ [AddDoc "records" fields]
     \/ exists docId,
          writes (run handleSubmit env w)
          = writes w ++ [UpdateDoc "records" docId fields])
    /\ forall doc env' w', Carries doc fields ->
         decode doc env' w'
         = (Returned
              {| id := doc_id doc;
                 name := f_name (formData (ui w));
                 singular := f_singular (formData (ui w));
                 plural := f_plural (formData (ui w));
                 status := if truthy (f_status (formData (ui w)))
                           then f_status (formData (ui w)) else js "Active";
                 createdAt := match editingRecord (ui w) with
                              | Some editing => createdAt editing
                              | None => clock env (ticks w)
                              end;
                 updatedAt := clock env (ticks w) |},
            w').
Proof.
  intros Hn.
  exists (recordData (formData (ui w)) (editingRecord (ui w))
                     (clock env (ticks w))).
  split.
  - unfold run; rewrite (handleSubmit_valid env w Hn); simpl.
    assert (Hw : forall a b : World, writes a = writes b ->
                 writes (if accepts env (List.length (writes w))
                              (submitCommand (ui w) (clock env (ticks w)))
                         then a else b) = writes a)
      by (intros a b H; destruct (accepts env _ _); congruence).
    rewrite Hw by reflexivity; simpl; unfold submitCommand.
    destruct (editingRecord (ui w)) as [editing|]; [right; eauto | left; reflexivity].
  - intros doc env' w' [H1 [H2 [H3 [H4 [[tc [H5 Hc]] [tu [H6 Hu]]]]]]].
    unfold decode, bind, dateOrNow, ret; rewrite H1, H2, H3, H4, H5, H6.
    rewrite !orElse_empty_default, Hc, Hu; reflexivity.
Qed.

Lemma written_fields_read_back_witness :
  exists fields,
    writes (run handleSubmit Sample.envOk (Sample.world Sample.createState))
    = [AddDoc "records" fields]
    /\ w_name fields = js "Tree".
Proof.
  destruct (@written_fields_read_back Sample.envOk
              (Sample.world Sample.createState)
              ltac:(vm_compute; discriminate)) as [fields [[H | [d H]] _]].
  - exists fields; split; [exact H|].
    vm_compute in H; injection H as <-; reflexivity.
  - vm_compute in H; discriminate H.
Defined.

(** ** Sessions *)

Lemma at_index_In {A} (l : list A) (k : Z) (x : A) :
  at_index l k = Some x -> In x l.
Proof.
  intros H; apply at_index_Some in H; destruct H as [_ H].
  eapply nth_error_In; exact H.
Qed.

Lemma filteredRecords_incl (toLowerCase : jsstring -> jsstring)
    (L : list AppRecord) (q : jsstring) (s : StatusFilter) (r : AppRecord) :
  In r (filteredRecords toLowerCase L q s) -> In r L.
Proof. unfold filteredRecords; intros H; apply filter_In in H; tauto. Qed.

Section Sessions.

Variable toLowerCase : jsstring -> jsstring.

(** What each event does to the world, case by case. *)
Lemma dispatch_world (env : Env) (w : World) (e : Event) :
  result (dispatch toLowerCase e) env w = Returned tt
  /\ match e with
     | SnapshotPush snapshot =>
         exists rs,
           Forall2 DecodedFrom snapshot rs
           /\ run (dispatch toLowerCase e) env w
              = {| ui := {| records := rs; searchQuery := searchQuery (ui w);
                            statusFilter := statusFilter (ui w);
                            showModal := showModal (ui w);
                            editingRecord := editingRecord (ui w);
                            selectedRecord := selectedRecord (ui w);
                            formData := formData (ui w) |};
                   toasts := toasts w; console := console w;
                   writes := writes w;
                   ticks := ticks w + missingInSnapshot snapshot |}
     | Submit =>
         (trim (f_name (formData (ui w))) = []
          /\ run (dispatch toLowerCase e) env w
             = withToast w (ToastError "Name is required"))
         \/ (trim (f_name (formData (ui w))) <> []
             /\ exists st' t c,
                  (st' = ui w \/ st' = closedForm (ui w))
                  /\ run (dispatch toLowerCase e) env w
                     = {| ui := st'; toasts := toasts w ++ [t];
                          console := console w ++ c;
                          writes := writes w
                                    ++ [submitCommand (ui w) (clock env (ticks w))];
                          ticks := S (ticks w) |}
                  /\ List.length c <= 1)
     | DeleteClick record =>
         run (dispatch toLowerCase e) env w = w
         \/ exists t c,
              run (dispatch toLowerCase e) env w
              = {| ui := ui w; toasts := toasts w ++ [t];
                   console := console w ++ c;
                   writes := writes w ++ [DeleteDoc "records" (id record)];
                   ticks := ticks w |}
              /\ List.length c <= 1
     | PreviousClick | NextClick =>
         run (dispatch toLowerCase e) env w = w
         \/ exists r, In r (rendered toLowerCase (ui w))
                      /\ run (dispatch toLowerCase e) env w
                         = run (setSelectedRecord (Some r)) env w
     | DetailsEditClick =>
         run (dispatch toLowerCase e) env w = w
         \/ exists selected,
              selectedRecord (ui w) = Some selected
              /\ run (dispatch toLowerCase e) env w
                 = run (setSelectedRecord None ;; handleEdit selected) env w
     | _ => True
     end.
Proof.
  destruct e; try (split; [reflexivity | exact I]).
  - (* SnapshotPush *)
    destruct (onSnapshotCallback_run snapshot env w) as [rs [_ [HF E]]].
    unfold result, run; simpl; rewrite E; split; [reflexivity|].
    exists rs; auto.
  - (* DeleteClick *)
    unfold result, run; simpl.
    destruct (confirm env "Are you sure you want to delete this record?") eqn:Hc.
    + rewrite (handleDelete_confirmed env w (id record) Hc); simpl.
      split; [reflexivity|]; right.
      destruct (accepts env _ _);
        [exists (ToastSuccess "Record deleted successfully"), []
        |exists (ToastError "Error deleting record"),
                ["Error deleting record:"%string]];
        rewrite ?app_nil_r; simpl; split; auto; destruct w; reflexivity.
    + rewrite (handleDelete_declined env w (id record) Hc); auto.
  - (* Submit *)
    unfold result, run; simpl.
    destruct (trim (f_name (formData (ui w)))) as [|c0 t0] eqn:Hn.
    + rewrite (handleSubmit_blank env w Hn); auto.
    + assert (Hne : trim (f_name (formData (ui w))) <> [])
        by (rewrite Hn; discriminate).
      rewrite (handleSubmit_valid env w Hne); simpl.
      split; [reflexivity|]; right; split; [discriminate|].
      destruct (accepts env _ _).
      * exists (closedForm (ui w)), (ToastSuccess (successMessage (ui w))), [].
        rewrite app_nil_r; simpl; auto.
      * exists (ui w), (ToastError "Error saving record. Please try again."),
               ["Error saving record:"%string]; simpl; auto.
  - (* PreviousClick *)
    unfold result, run, dispatch, bind, getState.
    destruct (selectedRecord (ui w)) as [selected|] eqn:Hs; [|simpl; auto].
    destruct (hasPrev (rendered toLowerCase (ui w)) selected) eqn:Hp.
    + destruct (onPreviousClick_selects _ _ env w Hp) as [prv [Hat E]].
      unfold run in E; rewrite E; split; [|right; exists prv; split; auto].
      * unfold onPreviousClick; rewrite Hp; reflexivity.
      * exact (at_index_In _ _ Hat).
    + rewrite (onPreviousClick_disabled _ _ env w Hp); auto.
  - (* NextClick *)
    unfold result, run, dispatch, bind, getState.
    destruct (selectedRecord (ui w)) as [selected|] eqn:Hs; [|simpl; auto].
    destruct (hasNext (rendered toLowerCase (ui w)) selected) eqn:Hp.
    + destruct (onNextClick_selects _ _ env w Hp) as [nxt [Hat E]].
      unfold run in E; rewrite E; split; [|right; exists nxt; split; auto].
      * unfold onNextClick; rewrite Hp; reflexivity.
      * exact (at_index_In _ _ Hat).
    + rewrite (onNextClick_disabled _ _ env w Hp); auto.
  - (* DetailsEditClick *)
    unfold result, run, dispatch, bind, getState.
    destruct (selectedRecord (ui w)) as [selected|] eqn:Hs; simpl; eauto.
Qed.

End Sessions.

Section SessionInvariants.

Variable toLowerCase : jsstring -> jsstring.

Lemma closed_form_invariant (env : Env) (trace : list Event) (w : World) :
  Run toLowerCase env trace w ->
  showModal (ui w) = false ->
  formData (ui w) = emptyForm /\ editingRecord (ui w) = None.
Proof.
  induction 1 as [|trace w e HR IH Hoff]; [split; reflexivity|].
  destruct (dispatch_world toLowerCase env w e) as [_ Hw].
  destruct e; simpl in Hoff.
  - destruct Hw as [rs [_ ->]]; exact IH.
  - exact IH.
  - exact IH.
  - discriminate.
  - exact IH.
  - discriminate.
  - destruct Hw as [-> | [t [c [-> _]]]]; exact IH.
  - unfold run; simpl; rewrite Hoff; discriminate.
  - destruct Hw as [[_ ->] | [_ [st' [t [c [[-> | ->] [-> _]]]]]]]; simpl;
      [exact IH | exact IH | auto].
  - unfold run; simpl; auto.
  - destruct Hw as [-> | [r [_ ->]]]; exact IH.
  - destruct Hw as [-> | [r [_ ->]]]; exact IH.
  - exact IH.
  - destruct Hw as [-> | [sel [_ ->]]]; [exact IH | discriminate].
Qed.

(** X20. In every state a session can reach, a closed form is a clean
    form: its fields are at their defaults and there is no editing target.
    So the Add button, which only shows the form, always opens an empty
    form in Create mode. *)
Theorem add_opens_an_empty_create_form (env : Env) (trace : list Event)
    (w : World) :
  Run toLowerCase env trace w ->
  showModal (ui w) = false ->
  (formData (ui w) = emptyForm /\ editingRecord (ui w) = None)
  /\ showModal (ui (run (dispatch toLowerCase AddClick) env w)) = true
  /\ formData (ui (run (dispatch toLowerCase AddClick) env w)) = emptyForm
  /\ editingRecord (ui (run (dispatch toLowerCase AddClick) env w)) = None.
Proof.
  intros HR Hs; destruct (closed_form_invariant HR Hs) as [Hf He].
  repeat split; assumption.
Qed.

Lemma session_ids_invariant (env : Env) (trace : list Event) (w : World) :
  Run toLowerCase env trace w ->
  (forall r, In r (records (ui w)) -> In (id r) (deliveredIds trace))
  /\ (forall r, selectedRecord (ui w) = Some r -> In (id r) (deliveredIds trace))
  /\ (forall r, editingRecord (ui w) = Some r -> In (id r) (deliveredIds trace))
  /\ Forall (fun call =>
               collectionOf call = "records"%string
               /\ (forall n, writtenName call = Some n -> trim n <> [])
               /\ (forall d, targetId call = Some d ->
                             In d (deliveredIds trace)))
            (writes w).
Proof.
  induction 1 as [|trace w e HR [IHr [IHs [IHe IHw]]] Hoff].
  { simpl; repeat split; try discriminate; try constructor; intros r []. }
  destruct (dispatch_world toLowerCase env w e) as [_ Hw].
  assert (Hin : forall r, In r (rendered toLowerCase (ui w)) ->
                          In (id r) (deliveredIds trace)).
  { intros r Hr; apply IHr; exact (filteredRecords_incl _ _ _ _ _ Hr). }
  destruct e; simpl in Hoff; simpl deliveredIds;
    try (unfold run; simpl; repeat split; solve [auto | discriminate]).
  - (* SnapshotPush *)
    destruct Hw as [rs [HF ->]]; simpl.
    pose proof (Forall2_DecodedFrom_ids HF) as Hids.
    repeat split.
    + intros r Hr; apply in_or_app; left; rewrite <- Hids.
      apply in_map; exact Hr.
    + intros r Hr; apply in_or_app; right; auto.
    + intros r Hr; apply in_or_app; right; auto.
    + eapply Forall_impl; [|exact IHw]; simpl.
      intros call [Hc [Hn Ht]]; repeat split; auto.
      intros d Hd; apply in_or_app; right; auto.
  - (* RowClick *)
    unfold run; simpl; repeat split; auto.
    intros r Hr; injection Hr as <-; auto.
  - (* EditClick *)
    unfold run; simpl; repeat split; auto.
    intros r Hr; injection Hr as <-; auto.
  - (* DeleteClick *)
    destruct Hw as [-> | [t [c [-> _]]]]; simpl; [repeat split; auto|].
    repeat split; auto.
    apply Forall_app; split; [exact IHw|].
    constructor; [|constructor]; simpl.
    repeat split; [discriminate|].
    intros d Hd; injection Hd as <-; auto.
  - (* Submit *)
    destruct Hw as [[_ ->] | [Hn [st' [t [c [Hst [-> _]]]]]]]; simpl;
      [repeat split; auto|].
    assert (Hcall : Forall (fun call =>
               collectionOf call = "records"%string
               /\ (forall n, writtenName call = Some n -> trim n <> [])
               /\ (forall d, targetId call = Some d ->
                             In d (deliveredIds trace)))
              (writes w ++ [submitCommand (ui w) (clock env (ticks w))])).
    { apply Forall_app; split; [exact IHw|].
      constructor; [|constructor]; unfold submitCommand.
      destruct (editingRecord (ui w)) as [editing|] eqn:He; simpl;
        repeat split; try discriminate;
        try (intros n Hn'; injection Hn' as <-; exact Hn).
      intros d Hd; injection Hd as <-; auto. }
    destruct Hst as [-> | ->]; simpl; repeat split; auto; discriminate.
  - (* PreviousClick *)
    destruct Hw as [-> | [r [Hr ->]]]; unfold run; simpl; repeat split; auto.
    intros r' Hr'; injection Hr' as <-; auto.
  - (* NextClick *)
    destruct Hw as [-> | [r [Hr ->]]]; unfold run; simpl; repeat split; auto.
    intros r' Hr'; injection Hr' as <-; auto.
  - (* DetailsEditClick *)
    destruct Hw as [-> | [sel [Hsel ->]]]; unfold run; simpl;
      repeat split; auto; try discriminate.
    intros r' Hr'; injection Hr' as <-; auto.
Qed.

(** X21. Throughout a session, every write the client has issued goes to
    the records collection; every create and update carries a name that is
    not blank; and every update and delete targets a document id that the
    backend delivered in some push. *)
Theorem session_writes_are_well_formed (env : Env) (trace : list Event)
    (w : World) (call : WriteCall) :
  Run toLowerCase env trace w ->
  In call (writes w) ->
  collectionOf call = "records"%string
  /\ (forall n, writtenName call = Some n -> trim n <> [])
  /\ (forall d, targetId call = Some d -> In d (deliveredIds trace)).
Proof.
  intros HR Hin.
  destruct (session_ids_invariant HR) as [_ [_ [_ Hw]]].
  rewrite Forall_forall in Hw; exact (Hw call Hin).
Qed.


(** X23. When a push no longer holds the selected record's document, the
    selection is kept, and the details modal, still open on it, shows
    position 0 of the number of records listed, with Previous and Next
    disabled and their clicks without effect. *)
Theorem dropped_selection_shows_zero (snapshot : list QueryDocumentSnapshot)
    (env : Env) (w : World) (selected : AppRecord) :
  selectedRecord (ui w) = Some selected ->
  (forall doc, In doc snapshot -> doc_id doc <> id selected) ->
  let w' := run (onSnapshotCallback snapshot) env w in
  let filtered := rendered toLowerCase (ui w') in
  selectedRecord (ui w') = Some selected
  /\ currentIndex filtered selected = (-1)%Z
  /\ recordNum filtered selected = 0%Z
  /\ previousDisabled filtered selected = true
  /\ nextDisabled filtered selected = true
  /\ run (dispatch toLowerCase PreviousClick) env w' = w'
  /\ run (dispatch toLowerCase NextClick) env w' = w'.
Proof.
  intros Hsel Hnot w' filtered.
  destruct (onSnapshotCallback_run snapshot env w) as [rs [_ [HF E]]].
  assert (Ew : w' = snd (onSnapshotCallback snapshot env w)) by reflexivity.
  rewrite E in Ew; simpl in Ew.
  assert (Hs' : selectedRecord (ui w') = Some selected)
    by (rewrite Ew; exact Hsel).
  assert (Hi : currentIndex filtered selected = (-1)%Z).
  { unfold currentIndex, findIndex.
    apply findIndexFrom_none; [lia|].
    intros r Hr; apply streq_false_iff; intros Hid.
    unfold filtered, rendered in Hr; apply filteredRecords_incl in Hr.
    rewrite Ew in Hr; simpl in Hr.
    assert (Hm : In (id r) (map doc_id snapshot)).
    { rewrite <- (Forall2_DecodedFrom_ids HF); apply in_map; exact Hr. }
    apply in_map_iff in Hm; destruct Hm as [doc [Hd Hin]].
    apply (Hnot doc Hin); congruence. }
  assert (Hp : hasPrev filtered selected = false)
    by (unfold hasPrev; rewrite Hi; reflexivity).
  assert (Hn : hasNext filtered selected = false)
    by (unfold hasNext; rewrite Hi; apply andb_false_r).
  split; [exact Hs'|]. split; [exact Hi|].
  split; [unfold recordNum; rewrite Hi; reflexivity|].
  split; [unfold previousDisabled; rewrite Hp; reflexivity|].
  split; [unfold nextDisabled; rewrite Hn; reflexivity|].
  split.
  - rewrite (@dispatch_PreviousClick toLowerCase env w' selected Hs').
    unfold run; fold filtered.
    rewrite (onPreviousClick_disabled _ _ env w' Hp); reflexivity.
  - rewrite (@dispatch_NextClick toLowerCase env w' selected Hs').
    unfold run; fold filtered.
    rewrite (onNextClick_disabled _ _ env w' Hn); reflexivity.
Qed.

(** X24. Every handler returns normally, whatever the backend answers; the
    record list is changed by a push and by no other event; and an event
    issues at most one write, which only a form submission and a delete
    click do. *)
Theorem handlers_return_and_write_once (env : Env) (w : World) (e : Event) :
  result (dispatch toLowerCase e) env w = Returned tt
  /\ ((forall snapshot, e <> SnapshotPush snapshot) ->
      records (ui (run (dispatch toLowerCase e) env w)) = records (ui w))
  /\ (writes (run (dispatch toLowerCase e) env w) = writes w
      \/ exists call,
           writes (run (dispatch toLowerCase e) env w) = writes w ++ [call]
           /\ (e = Submit \/ exists record, e = DeleteClick record)).
Proof.
  destruct (dispatch_world toLowerCase env w e) as [Hres Hw].
  split; [exact Hres|].
  destruct e; try (split; [intros _; reflexivity | left; reflexivity]).
  - split; [intros H; destruct (H snapshot eq_refl)|].
    destruct Hw as [rs [_ ->]]; left; reflexivity.
  - destruct Hw as [-> | [t [c [-> _]]]]; simpl; [auto|].
    split; [reflexivity|]; right; eauto.
  - destruct Hw as [[_ ->] | [_ [st' [t [c [[-> | ->] [-> _]]]]]]]; simpl;
      (split; [reflexivity|]); [left; reflexivity | right; eauto ..].
  - destruct Hw as [-> | [r [_ ->]]]; auto.
  - destruct Hw as [-> | [r [_ ->]]]; auto.
  - destruct Hw as [-> | [sel [_ ->]]]; auto.
Qed.

End SessionInvariants.

Lemma add_opens_an_empty_create_form_witness :
  formData
    (ui (run (dispatch toLowerCaseLatin AddClick) Sample.envOk
             (run (dispatch toLowerCaseLatin Cancel) Sample.envOk
                  (run (dispatch toLowerCaseLatin (InputChange Fname (js "Tree")))
                       Sample.envOk
                       (run (dispatch toLowerCaseLatin AddClick) Sample.envOk
                            (Sample.world initialState))))))
  = emptyForm.
Proof.
  refine (proj1 (proj2 (proj2
            (@add_opens_an_empty_create_form toLowerCaseLatin Sample.envOk
               [Cancel; InputChange Fname (js "Tree"); AddClick]
               (run (dispatch toLowerCaseLatin Cancel) Sample.envOk
                  (run (dispatch toLowerCaseLatin (InputChange Fname (js "Tree")))
                       Sample.envOk
                       (run (dispatch toLowerCaseLatin AddClick) Sample.envOk
                            (Sample.world initialState))))
               _ eq_refl)))).
  repeat (apply run_step); try apply run_start; try reflexivity; try exact I.
Defined.

Lemma editSession_runs :
  Run toLowerCaseLatin Sample.envOk editSession afterEditSession.
Proof.
  unfold editSession, afterEditSession.
  apply run_step; [apply run_step; [apply run_step; [apply run_start|]|]|].
  - exact I.
  - left; reflexivity.
  - reflexivity.
Defined.

Lemma session_writes_are_well_formed_witness :
  trim (js "Moss") <> [] /\ In (js "d3") (deliveredIds editSession).
Proof.
  destruct (@session_writes_are_well_formed toLowerCaseLatin Sample.envOk
              editSession afterEditSession
              (UpdateDoc "records" (js "d3")
                 {| w_name := js "Moss"; w_singular := js "moss";
                    w_plural := js "mosses"; w_status := js "Inactive";
                    w_createdAt := 100%Z; w_updatedAt := 4000%Z |})
              editSession_runs (or_introl eq_refl))
    as [_ [Hn Ht]].
  split; [apply Hn | apply Ht]; reflexivity.
Defined.


Lemma dropped_selection_shows_zero_witness :
  recordNum
    (rendered toLowerCaseLatin
       (ui (run (onSnapshotCallback [Tour.fullDoc]) Sample.envOk
                (Sample.world Tour.stoneSelected))))
    Sample.stone = 0%Z.
Proof.
  refine (proj1 (proj2 (proj2
            (@dropped_selection_shows_zero toLowerCaseLatin [Tour.fullDoc]
               Sample.envOk (Sample.world Tour.stoneSelected) Sample.stone
               eq_refl _)))).
  intros doc [<- | []]; discriminate.
Defined.
